(** * The capture supervisor of the video digitizer (src/capture.c)

    A shallow embedding of [capture_loop] and of its helpers, and the
    properties of the capture engine proved on it.

    The C code talks to the kernel (select, ioctl), to the device module
    (device_open, device_close), to the JPEG module and to pthreads.  All of
    these are answered by a [world]: a family of functions from the logical
    time of the call to its answer.  The supervisor is a function in a
    state monad whose state holds the device structure, the worker pool, the
    logical clock and the log of the calls made so far. *)

From Stdlib Require Import ZArith List Bool Lia.
Import ListNotations.
Open Scope Z_scope.

(** ** Machine integers *)

(** [unsigned] and [__u32] values are kept in [0, 2^32). *)
Definition u32 (x : Z) : Z := x mod 2 ^ 32.

(** The conversion to [int], two's complement. *)
Definition s32 (x : Z) : Z := (x + 2 ^ 31) mod 2 ^ 32 - 2 ^ 31.

(** Constants of errno.h and linux/videodev2.h. *)
Definition EINTR : Z := 4.
Definition V4L2_EVENT_EOS : Z := 2.
Definition V4L2_EVENT_SOURCE_CHANGE : Z := 5.

(** ** Data model (device.h, capture.h) *)

(** struct device_runtime: the fields capture.c reads or writes. *)
Record device_runtime := mk_runtime {
  fd : Z;
  n_buffers : Z;
  capturing : bool
}.

(** struct device: the fields capture.c reads. *)
Record device := mk_device {
  every_frame : Z;
  min_frame_size : Z;
  timeout : Z;
  error_timeout : Z;
  run : device_runtime
}.

(** struct v4l2_buffer: the fields capture.c reads. *)
Record v4l2_buffer := mk_buffer {
  index : Z;
  bytesused : Z
}.

(** One element of pool->workers: the thread and the index given to it. *)
Record worker := mk_worker {
  tid : nat;
  params_index : Z
}.

(** struct workers_pool: [workers] is [None] when the pointer is NULL. *)
Record workers_pool := mk_pool {
  workers : option (list worker)
}.

(** ** The world *)

Record select_result := mk_select {
  sel_retval : Z;
  sel_errno : Z;
  sel_read : bool;
  sel_write : bool;
  sel_error : bool
}.

Record ioctl_result := mk_ioctl {
  io_retval : Z;
  io_index : Z;
  io_bytesused : Z;
  io_type : Z
}.

Record open_result := mk_open {
  op_retval : Z;
  op_fd : Z;
  op_n_buffers : Z
}.

Record world := mk_world {
  stop_at : nat -> bool;
  select_at : nat -> select_result;
  ioctl_at : nat -> ioctl_result;
  open_at : nat -> open_result;
  calloc_at : nat -> bool;
  pthread_at : nat -> Z
}.

(** The stop signal is a latch: once asserted it stays asserted. *)
Definition latch (stop : nat -> bool) : Prop :=
  forall t u : nat, (t <= u)%nat -> stop t = true -> stop u = true.

(** ** The log of calls *)

Inductive request :=
| VIDIOC_STREAMON | VIDIOC_STREAMOFF | VIDIOC_DQBUF | VIDIOC_QBUF
| VIDIOC_DQEVENT.

Inductive pthread_op :=
| MutexInit | CondInit | Create | Join | CondDestroy | MutexDestroy.

Inductive event :=
| EvStop (asserted : bool)
| EvSelect (secs : Z) (r : select_result)
| EvIoctl (req : request) (arg : Z) (r : ioctl_result)
| EvCompress (idx : Z)
| EvOpen (retval : Z)
| EvClose
| EvSleep (secs : Z)
| EvCalloc (n : Z) (ok : bool)
| EvFree
| EvPthread (op : pthread_op) (retval : Z).

(** ** State and monad *)

Record state := mk_state {
  dev : device;
  pool : workers_pool;
  now : nat;
  nthreads : nat;
  log : list event
}.

Inductive halt := AssertFailed | OutOfBounds | OutOfFuel.

Inductive outcome (A : Type) :=
| Ok (a : A) (s : state)
| Halt (h : halt) (s : state).
Arguments Ok {A} a s.
Arguments Halt {A} h s.

Definition M (A : Type) : Type := state -> outcome A.

Definition ret {A} (a : A) : M A := fun s => Ok a s.

Definition bind {A B} (m : M A) (f : A -> M B) : M B :=
  fun s => match m s with
           | Ok a s' => f a s'
           | Halt h s' => Halt h s'
           end.

Definition stop_with {A} (h : halt) : M A := fun s => Halt h s.

Declare Scope monad_scope.
Delimit Scope monad_scope with monad.
Notation "x <- m ;; k" := (bind m (fun x => k))
  (at level 61, m at next level, right associativity) : monad_scope.
Notation "m ;;; k" := (bind m (fun _ => k))
  (at level 61, right associativity) : monad_scope.
Open Scope monad_scope.

Definition get : M state := fun s => Ok s s.
Definition modify (f : state -> state) : M unit := fun s => Ok tt (f s).

Definition set_run (r : device_runtime) (d : device) : device :=
  mk_device (every_frame d) (min_frame_size d) (timeout d) (error_timeout d) r.

Definition with_dev (d : device) (s : state) : state :=
  mk_state d (pool s) (now s) (nthreads s) (log s).
Definition with_pool (p : workers_pool) (s : state) : state :=
  mk_state (dev s) p (now s) (nthreads s) (log s).
Definition with_nthreads (n : nat) (s : state) : state :=
  mk_state (dev s) (pool s) (now s) n (log s).
Definition record (e : event) (s : state) : state :=
  mk_state (dev s) (pool s) (now s) (nthreads s) (e :: log s).
Definition advance (s : state) : state :=
  mk_state (dev s) (pool s) (S (now s)) (nthreads s) (log s).

Definition set_capturing (b : bool) (s : state) : state :=
  with_dev (set_run (mk_runtime (fd (run (dev s))) (n_buffers (run (dev s))) b)
              (dev s)) s.

(** The calls in chronological order. *)
Definition trace (s : state) : list event := rev (log s).

(** Every call into the world takes one tick of the clock. *)
Definition tick : M nat := fun s => Ok (now s) (advance s).
Definition emit (e : event) : M unit := modify (record e).

(** assert(!call): the process is aborted when the call returns non-zero. *)
Definition assert_zero (m : M Z) : M unit :=
  r <- m ;; if r =? 0 then ret tt else stop_with AssertFailed.

(** A [for (unsigned index = from; ...; ++index)] loop of [count] rounds. *)
Fixpoint for_ (count : nat) (from : Z) (body : Z -> M unit) : M unit :=
  match count with
  | O => ret tt
  | S c => body from ;;; for_ c (from + 1) body
  end.

(** Assignment to one element of an array. *)
Fixpoint upd {A} (l : list A) (i : nat) (x : A) : list A :=
  match l, i with
  | [], _ => []
  | _ :: t, O => x :: t
  | h :: t, S j => h :: upd t j x
  end.

(** ** The worker thread *)

(** [_capture_worker_thread]: [while (! *params.stop);].  [stop k] is what
    the [k]-th read of the flag gives; [fuel] bounds the number of rounds. *)
Fixpoint _capture_worker_thread (fuel : nat) (stop : nat -> bool) (k : nat)
  : option unit :=
  if stop k then Some tt
  else match fuel with
       | O => None
       | S f => _capture_worker_thread f stop (S k)
       end.

(** The thread created at tick [t0] reads the flag once per tick; it has
    returned by time [t] when one of its reads before [t] saw the flag. *)
Definition thread_exited (W : world) (t0 t : nat) : bool :=
  match (t - t0)%nat with
  | O => false
  | S reads =>
      match _capture_worker_thread reads (stop_at W) t0 with
      | Some _ => true
      | None => false
      end
  end.

Section Capture.

Variable W : world.

(** ** Calls into the world *)

(** The read of [*stop]. *)
Definition read_stop : M bool :=
  t <- tick ;;
  emit (EvStop (stop_at W t)) ;;;
  ret (stop_at W t).

Definition select_ (secs : Z) : M select_result :=
  t <- tick ;;
  emit (EvSelect secs (select_at W t)) ;;;
  ret (select_at W t).

Definition xioctl (req : request) (arg : Z) : M ioctl_result :=
  t <- tick ;;
  emit (EvIoctl req arg (ioctl_at W t)) ;;;
  ret (ioctl_at W t).

Definition sleep (secs : Z) : M unit :=
  _ <- tick ;; emit (EvSleep secs).

Definition jpeg_compress_buffer (idx : Z) : M unit :=
  emit (EvCompress idx).

Definition calloc (n : Z) : M bool :=
  t <- tick ;;
  emit (EvCalloc n (calloc_at W t)) ;;;
  ret (calloc_at W t).

Definition free : M unit := emit EvFree.

(** Modelled from the spec: device_open of device.c, which is not part of
    the sources.  The spec gives [open(config) -> Session|Error]; a session
    carries the descriptor and the negotiated buffer count. *)
Definition device_open : M Z :=
  t <- tick ;;
  let r := open_at W t in
  emit (EvOpen (op_retval r)) ;;;
  (if op_retval r <? 0 then ret tt
   else modify (fun s =>
          with_dev (set_run (mk_runtime (op_fd r) (u32 (op_n_buffers r))
                               (capturing (run (dev s)))) (dev s)) s)) ;;;
  ret (op_retval r).

(** Modelled from the spec: device_close of device.c, which is not part of
    the sources.  The spec gives [close(session)]; the descriptor is given
    up and the capturing flag is left to the stream controller. *)
Definition device_close : M unit :=
  emit EvClose ;;;
  modify (fun s =>
    with_dev (set_run (mk_runtime (-1) (n_buffers (run (dev s)))
                         (capturing (run (dev s)))) (dev s)) s).

(** pthread_mutex_init, pthread_cond_init, pthread_cond_destroy and
    pthread_mutex_destroy: the world gives the return code. *)
Definition pthread_call (op : pthread_op) : M Z :=
  t <- tick ;;
  emit (EvPthread op (pthread_at W t)) ;;;
  ret (pthread_at W t).

(** pthread_create: the new thread is named by the tick of its creation. *)
Definition pthread_create : M (Z * nat) :=
  t <- tick ;;
  emit (EvPthread Create (pthread_at W t)) ;;;
  (if pthread_at W t =? 0
   then modify (fun s => with_nthreads (S (nthreads s)) s)
   else ret tt) ;;;
  ret (pthread_at W t, t).

(** The caller of pthread_join is blocked until the thread has returned. *)
Fixpoint wait_thread (fuel : nat) (t0 : nat) : M unit :=
  fun s =>
    if thread_exited W t0 (now s) then Ok tt s
    else match fuel with
         | O => Halt OutOfFuel s
         | S f => wait_thread f t0 (advance s)
         end.

Definition pthread_join (fuel : nat) (t0 : nat) : M Z :=
  wait_thread fuel t0 ;;;
  t <- tick ;;
  emit (EvPthread Join (pthread_at W t)) ;;;
  (if pthread_at W t =? 0
   then modify (fun s => with_nthreads (pred (nthreads s)) s)
   else ret tt) ;;;
  ret (pthread_at W t).

(** ** Stream controller *)

Definition _capture_control (enable : bool) : M Z :=
  s <- get ;;
  if negb (eqb enable (capturing (run (dev s)))) then
    r <- xioctl (if enable then VIDIOC_STREAMON else VIDIOC_STREAMOFF) 0 ;;
    if (io_retval r <? 0) && enable then ret (-1)
    else modify (set_capturing enable) ;;; ret 0
  else ret 0.

(** ** Buffer exchange *)

Definition _capture_grab_buffer : M (Z * v4l2_buffer) :=
  r <- xioctl VIDIOC_DQBUF 0 ;;
  if io_retval r <? 0 then ret (-1, mk_buffer 0 0)
  else
    let buf := mk_buffer (u32 (io_index r)) (u32 (io_bytesused r)) in
    s <- get ;;
    if n_buffers (run (dev s)) <=? index buf then ret (-1, buf)
    else ret (0, buf).

Definition _capture_release_buffer (buf : v4l2_buffer) : M Z :=
  r <- xioctl VIDIOC_QBUF (index buf) ;;
  if io_retval r <? 0 then ret (-1) else ret 0.

(** ** Event monitor *)

Definition _capture_handle_event : M Z :=
  r <- xioctl VIDIOC_DQEVENT 0 ;;
  if io_retval r =? 0 then
    if u32 (io_type r) =? V4L2_EVENT_SOURCE_CHANGE then ret (-1)
    else if u32 (io_type r) =? V4L2_EVENT_EOS then ret 0
    else ret 0
  else ret 0.

(** ** Worker pool *)

Definition set_workers (ws : option (list worker)) : M unit :=
  modify (with_pool (mk_pool ws)).

(** One round of the loop of [_capture_init_workers]: the worker [idx] gets
    its mutex, its condition variable, its parameters and its thread. *)
Definition spawn_worker (idx : Z) : M unit :=
  assert_zero (pthread_call MutexInit) ;;;
  assert_zero (pthread_call CondInit) ;;;
  rt <- pthread_create ;;
  s <- get ;;
  match workers (pool s) with
  | Some ws =>
      set_workers (Some (upd ws (Z.to_nat idx) (mk_worker (snd rt) idx)))
  | None => stop_with OutOfBounds
  end ;;;
  assert_zero (ret (fst rt)).

Definition _capture_init_workers : M Z :=
  s <- get ;;
  let n := n_buffers (run (dev s)) in
  set_workers None ;;;
  ok <- calloc n ;;
  if negb ok then ret (-1)
  else
    set_workers (Some (repeat (mk_worker O 0) (Z.to_nat n))) ;;;
    assert_zero (pthread_call MutexInit) ;;;
    assert_zero (pthread_call CondInit) ;;;
    for_ (Z.to_nat n) 0 spawn_worker ;;;
    ret 0.

Definition _capture_destroy_workers (fuel : nat) : M unit :=
  s <- get ;;
  match workers (pool s) with
  | Some ws =>
      for_ (Z.to_nat (n_buffers (run (dev s)))) 0 (fun idx =>
        match nth_error ws (Z.to_nat idx) with
        | Some w =>
            assert_zero (pthread_join fuel (tid w)) ;;;
            assert_zero (pthread_call CondDestroy) ;;;
            assert_zero (pthread_call MutexDestroy)
        | None => stop_with OutOfBounds
        end) ;;;
      assert_zero (pthread_call CondDestroy) ;;;
      assert_zero (pthread_call MutexDestroy) ;;;
      free
  | None => ret tt
  end ;;;
  set_workers None.

(** ** Mainloop *)

Inductive loop_ctl := Continue | Break.

(** The label [pass_frame]. *)
Definition pass_frame (buf : v4l2_buffer) (frames_count : Z)
  : M (loop_ctl * Z) :=
  r <- _capture_release_buffer buf ;;
  if r <? 0 then ret (Break, frames_count) else ret (Continue, frames_count).

(** The branch [FD_ISSET(dev->run->fd, &read_fds)]. *)
Definition frame_ready (frames_count : Z) : M (loop_ctl * Z) :=
  g <- _capture_grab_buffer ;;
  let buf := snd g in
  if fst g <? 0 then ret (Break, frames_count)
  else
    s <- get ;;
    let d := dev s in
    if negb (every_frame d =? 0)
       && (frames_count <? s32 (s32 (every_frame d) - 1))
    then pass_frame buf (s32 (frames_count + 1))
    else
      let frames_count' :=
        if negb (every_frame d =? 0) then 0 else frames_count in
      if bytesused buf <? min_frame_size d
      then pass_frame buf frames_count'
      else jpeg_compress_buffer (index buf) ;;; pass_frame buf frames_count'.

(** One round of [while (! *stop)], after the test of the flag. *)
Definition mainloop_body (frames_count : Z) : M (loop_ctl * Z) :=
  s <- get ;;
  r <- select_ (timeout (dev s)) ;;
  if sel_retval r <? 0 then
    if negb (sel_errno r =? EINTR) then ret (Break, frames_count)
    else ret (Continue, frames_count)
  else if sel_retval r =? 0 then ret (Break, frames_count)
  else
    c <- (if sel_read r then frame_ready frames_count
          else ret (Continue, frames_count)) ;;
    match fst c with
    | Break => ret (Break, snd c)
    | Continue =>
        if sel_write r then ret (Break, snd c)
        else if sel_error r then
          e <- _capture_handle_event ;;
          if e <? 0 then ret (Break, snd c) else ret (Continue, snd c)
        else ret (Continue, snd c)
    end.

Fixpoint mainloop (fuel : nat) (frames_count : Z) : M unit :=
  match fuel with
  | O => stop_with OutOfFuel
  | S f =>
      stop <- read_stop ;;
      if stop then ret tt
      else
        c <- mainloop_body frames_count ;;
        match fst c with
        | Break => ret tt
        | Continue => mainloop f (snd c)
        end
  end.

(** ** Session initialisation *)

Definition _capture_init (fuel : nat) : M Z :=
  _capture_destroy_workers fuel ;;;
  _ <- _capture_control false ;;
  device_close ;;;
  r1 <- device_open ;;
  if r1 <? 0 then device_close ;;; ret (-1)
  else
    r2 <- _capture_control true ;;
    if r2 <? 0 then device_close ;;; ret (-1)
    else
      r3 <- _capture_init_workers ;;
      if r3 <? 0 then device_close ;;; ret (-1)
      else ret 0.

(** [while (! *stop)] of [_capture_init_loop], with the current [retval]. *)
Fixpoint init_loop (fuel : nat) (retval : Z) : M Z :=
  match fuel with
  | O => stop_with OutOfFuel
  | S f =>
      stop <- read_stop ;;
      if stop then ret retval
      else
        r <- _capture_init fuel ;;
        if r <? 0 then
          s <- get ;;
          sleep (error_timeout (dev s)) ;;;
          init_loop f r
        else ret r
  end.

Definition _capture_init_loop (fuel : nat) : M Z := init_loop fuel (-1).

(** ** Supervisor *)

(** [while (_capture_init_loop(dev, &pool, stop) == 0)]. *)
Fixpoint sessions (fuel : nat) : M unit :=
  match fuel with
  | O => stop_with OutOfFuel
  | S f =>
      r <- _capture_init_loop fuel ;;
      if r =? 0 then mainloop fuel 0 ;;; sessions f
      else ret tt
  end.

Definition capture_loop (fuel : nat) : M unit :=
  set_workers None ;;;
  sessions fuel ;;;
  _capture_destroy_workers fuel ;;;
  _ <- _capture_control false ;;
  device_close.

End Capture.

(** ** Reading the log *)

Definition request_eqb (a b : request) : bool :=
  match a, b with
  | VIDIOC_STREAMON, VIDIOC_STREAMON
  | VIDIOC_STREAMOFF, VIDIOC_STREAMOFF
  | VIDIOC_DQBUF, VIDIOC_DQBUF
  | VIDIOC_QBUF, VIDIOC_QBUF
  | VIDIOC_DQEVENT, VIDIOC_DQEVENT => true
  | _, _ => false
  end.

(** The ioctl calls of one request, with their results. *)
Definition ioctls (q : request) (tr : list event) : list ioctl_result :=
  flat_map (fun e => match e with
                     | EvIoctl q' _ r => if request_eqb q q' then [r] else []
                     | _ => []
                     end) tr.

(** The buffer indices handed to the compression collaborator. *)
Definition forwarded (tr : list event) : list Z :=
  flat_map (fun e => match e with EvCompress i => [i] | _ => [] end) tr.

(** The buffer indices given back to the driver with VIDIOC_QBUF. *)
Definition released (tr : list event) : list Z :=
  flat_map (fun e => match e with
                     | EvIoctl VIDIOC_QBUF i _ => [i]
                     | _ => []
                     end) tr.

(** The buffer indices the driver handed out with VIDIOC_DQBUF. *)
Definition dequeued (tr : list event) : list Z :=
  flat_map (fun e => match e with
                     | EvIoctl VIDIOC_DQBUF _ r =>
                         if io_retval r <? 0 then [] else [u32 (io_index r)]
                     | _ => []
                     end) tr.

(** The verdicts of the event monitor, as the mainloop reads the result. *)
Inductive verdict := ReinitRequired | Ignore.

Definition verdict_of (retval : Z) : verdict :=
  if retval <? 0 then ReinitRequired else Ignore.

(** The calls made between two states of one run. *)
Definition since (s s' : state) : list event :=
  skipn (length (trace s)) (trace s').

(** The start operations that the driver accepted. *)
Definition accepted (rs : list ioctl_result) : list ioctl_result :=
  filter (fun r => 0 <=? io_retval r) rs.

(** ** Sample worlds *)

(** A healthy device: every wait reports a frame, every call succeeds, and
    the stop signal is asserted from tick [stop_from] on. *)
Definition healthy_world (stop_from : nat) : world :=
  mk_world (fun t => Nat.leb stop_from t)
           (fun _ => mk_select 1 0 true false false)
           (fun _ => mk_ioctl 0 0 9000 0)
           (fun _ => mk_open 0 3 2)
           (fun _ => true)
           (fun _ => 0).

(** A device whose every ioctl fails. *)
Definition failing_ioctl_world : world :=
  mk_world (fun _ => false)
           (fun _ => mk_select 1 0 true false false)
           (fun _ => mk_ioctl (-1) 0 0 0)
           (fun _ => mk_open 0 3 2)
           (fun _ => true)
           (fun _ => 0).

Definition sample_device (streaming : bool) : device :=
  mk_device 3 8000 2 1 (mk_runtime 3 2 streaming).

Definition sample_state (streaming : bool) : state :=
  mk_state (sample_device streaming) (mk_pool None) O O [].

(** ** The ownership handshake, read off a trace *)

(** [held] is the buffer the application owns.  A VIDIOC_DQBUF that succeeds
    with an index below [n] is an acquisition and needs [held] empty; a
    VIDIOC_QBUF or a compression needs its index held, and the VIDIOC_QBUF
    gives it back.  The result is [None] when a call breaks these rules. *)
Fixpoint handshake (n : Z) (held : option Z) (tr : list event)
  : option (option Z) :=
  match tr with
  | [] => Some held
  | EvIoctl VIDIOC_DQBUF _ r :: tr' =>
      if (io_retval r <? 0) || (n <=? u32 (io_index r))
      then handshake n held tr'
      else match held with
           | None => handshake n (Some (u32 (io_index r))) tr'
           | Some _ => None
           end
  | EvIoctl VIDIOC_QBUF i _ :: tr' =>
      match held with
      | Some j => if i =? j then handshake n None tr' else None
      | None => None
      end
  | EvCompress i :: tr' =>
      match held with
      | Some j => if i =? j then handshake n held tr' else None
      | None => None
      end
  | _ :: tr' => handshake n held tr'
  end.

(** The state an outcome ends in. *)
Definition final {A} (o : outcome A) : state :=
  match o with
  | Ok _ s => s
  | Halt _ s => s
  end.

(** The indices of the successful acquisitions: VIDIOC_DQBUF succeeded and
    the index is one of the [n] negotiated buffers. *)
Definition acquired (n : Z) (tr : list event) : list Z :=
  flat_map (fun e => match e with
                     | EvIoctl VIDIOC_DQBUF _ r =>
                         if (io_retval r <? 0) || (n <=? u32 (io_index r))
                         then [] else [u32 (io_index r)]
                     | _ => []
                     end) tr.

Definition held_list (h : option Z) : list Z :=
  match h with
  | Some i => [i]
  | None => []
  end.

(** ** Frames that arrive without errors *)

(** At tick [t] the stop flag is clear, the wait that follows reports the
    descriptor read-ready only, the VIDIOC_DQBUF that follows succeeds with
    buffer [idx] of [size] bytes, and the VIDIOC_QBUF after it succeeds. *)
Definition good_frame (W : world) (n : Z) (t : nat) (idx size : Z) : Prop :=
  stop_at W t = false /\
  0 < sel_retval (select_at W (S t)) /\
  sel_read (select_at W (S t)) = true /\
  sel_write (select_at W (S t)) = false /\
  sel_error (select_at W (S t)) = false /\
  0 <= io_retval (ioctl_at W (S (S t))) /\
  u32 (io_index (ioctl_at W (S (S t)))) = idx /\
  u32 (io_bytesused (ioctl_at W (S (S t)))) = size /\
  idx < n /\
  0 <= io_retval (ioctl_at W (S (S (S t)))).

(** Frames that arrive one after the other from tick [t] on. *)
Fixpoint arrive (W : world) (n : Z) (t : nat) (frames : list (Z * Z)) : Prop :=
  match frames with
  | [] => True
  | (idx, size) :: rest =>
      good_frame W n t idx size /\ arrive W n (4 + t) rest
  end.

(** The skip policy of [frame_ready]: is the frame dropped, and the counter
    after it. *)
Definition skipped (d : device) (frames_count : Z) : bool :=
  negb (every_frame d =? 0)
  && (frames_count <? s32 (s32 (every_frame d) - 1)).

Definition next_count (d : device) (frames_count : Z) : Z :=
  if skipped d frames_count then s32 (frames_count + 1)
  else if negb (every_frame d =? 0) then 0 else frames_count.

(** The state after one round in which a good frame arrived. *)
Definition after_frame (W : world) (fc : Z) (s : state) : state :=
  let r := ioctl_at W (S (S (now s))) in
  let idx := u32 (io_index r) in
  mk_state (dev s) (pool s) (4 + now s) (nthreads s)
    (EvIoctl VIDIOC_QBUF idx (ioctl_at W (S (S (S (now s)))))
     :: (if negb (skipped (dev s) fc)
            && negb (u32 (io_bytesused r) <? min_frame_size (dev s))
         then [EvCompress idx] else [])
     ++ EvIoctl VIDIOC_DQBUF 0 r
     :: EvSelect (timeout (dev s)) (select_at W (S (now s)))
     :: EvStop false :: log s).

(** The scenario of the specification: six frames, buffers 0 and 1 in
    turn, the third one too small; the stop signal comes after them. *)
Definition scenario_world : world :=
  mk_world (fun t => Nat.leb 24 t)
           (fun _ => mk_select 1 0 true false false)
           (fun t => mk_ioctl 0 (Z.of_nat (Nat.modulo (Nat.div t 4) 2))
                       (if Nat.eqb t 10 then 500 else 9000) 0)
           (fun _ => mk_open 0 3 2)
           (fun _ => true)
           (fun _ => 0).

(** A session with a pool of two workers, created at ticks 3 and 6. *)
Definition pooled_state : state :=
  mk_state (sample_device true)
           (mk_pool (Some [mk_worker 3 0; mk_worker 6 1])) 9 2 [].

(** The stop signal has been asserted at some tick before [now s]. *)
Definition stop_seen (W : world) (s : state) : Prop :=
  exists u : nat, (u < now s)%nat /\ stop_at W u = true.


(** The last call is a pthread initialisation that returned non-zero. *)
Definition failed_init (s : state) : Prop :=
  exists (op : pthread_op) (retval : Z),
    hd_error (log s) = Some (EvPthread op retval) /\ retval <> 0 /\
    (op = MutexInit \/ op = CondInit \/ op = Create).

(** The last call was a read of the stop flag, and it was asserted. *)
Definition stop_last (W : world) (s : state) : Prop :=
  exists t : nat,
    now s = S t /\ stop_at W t = true /\
    hd_error (log s) = Some (EvStop true).

(** A world in which the creation of the first worker thread of the first
    session, the pthread call at tick 8, fails with EAGAIN. *)
Definition no_thread_world : world :=
  mk_world (fun _ => false)
           (fun _ => mk_select 1 0 true false false)
           (fun _ => mk_ioctl 0 0 9000 0)
           (fun _ => mk_open 0 3 2)
           (fun _ => true)
           (fun t => if Nat.eqb t 8 then 11 else 0).

(** A world in which the pool cannot be allocated. *)
Definition no_memory_world : world :=
  mk_world (fun _ => false)
           (fun _ => mk_select 1 0 true false false)
           (fun _ => mk_ioctl 0 0 9000 0)
           (fun _ => mk_open 0 3 2)
           (fun _ => false)
           (fun _ => 0).

(** ** What the mainloop forwards *)

(** The calls a mainloop may make. *)
Definition mainloop_event (e : event) : bool :=
  match e with
  | EvStop _ | EvSelect _ _ | EvCompress _
  | EvIoctl VIDIOC_DQBUF _ _ | EvIoctl VIDIOC_QBUF _ _
  | EvIoctl VIDIOC_DQEVENT _ _ => true
  | _ => false
  end.

(** A check of the compressions in a trace.  [last] is the frame of the
    latest acquisition, index and size; a compression needs this frame to
    have its index, an index below [n] and a size of at least [min]. *)
Fixpoint audit (n min : Z) (last : option (Z * Z)) (tr : list event)
  : option (option (Z * Z)) :=
  match tr with
  | [] => Some last
  | EvIoctl VIDIOC_DQBUF _ r :: tr' =>
      if (io_retval r <? 0) || (n <=? u32 (io_index r))
      then audit n min None tr'
      else audit n min (Some (u32 (io_index r), u32 (io_bytesused r))) tr'
  | EvIoctl VIDIOC_QBUF _ _ :: tr' => audit n min None tr'
  | EvCompress i :: tr' =>
      match last with
      | Some (j, size) =>
          if (i =? j) && (j <? n) && (min <=? size)
          then audit n min last tr' else None
      | None => None
      end
  | _ :: tr' => audit n min last tr'
  end.

(** The skip policy and the size filter of [frame_ready] over a run of
    frames, each an index and a size: the indices forwarded, and the skip
    counter at the end. *)
Fixpoint forwarded_by (d : device) (c : Z) (frames : list (Z * Z)) : list Z :=
  match frames with
  | [] => []
  | (idx, size) :: rest =>
      (if negb (skipped d c) && negb (size <? min_frame_size d)
       then [idx] else [])
      ++ forwarded_by d (next_count d c) rest
  end.

Fixpoint count_after (d : device) (c : Z) (frames : list (Z * Z)) : Z :=
  match frames with
  | [] => c
  | _ :: rest => count_after d (next_count d c) rest
  end.

(** Every [N]-th frame: after [q] frames, the frame number [q + 1] is
    kept when [q + 1] is a multiple of [N], and forwarded when its size is
    at least [min]. *)
Fixpoint cadence (N min : Z) (q : Z) (frames : list (Z * Z)) : list Z :=
  match frames with
  | [] => []
  | (idx, size) :: rest =>
      (if ((q + 1) mod N =? 0) && negb (size <? min) then [idx] else [])
      ++ cadence N min (q + 1) rest
  end.

(** The frames of at least [min] bytes. *)
Definition large_enough (min : Z) (frames : list (Z * Z)) : list Z :=
  map fst (filter (fun f => negb (snd f <? min)) frames).

(** A session whose skip factor is 0: no frame is skipped. *)
Definition unskipped_state : state :=
  mk_state (mk_device 0 8000 2 1 (mk_runtime 3 2 true)) (mk_pool None) O O [].

(** A session is established: the stream is recorded as capturing and the
    pool has one worker per negotiated buffer. *)
Definition established (s : state) : Prop :=
  capturing (run (dev s)) = true /\
  exists ws : list worker,
    workers (pool s) = Some ws /\
    length ws = Z.to_nat (n_buffers (run (dev s))).

(** The calls that give one worker its mutex, its condition variable and its
    thread, each returning 0. *)
Definition worker_init_calls : list event :=
  [EvPthread MutexInit 0; EvPthread CondInit 0; EvPthread Create 0].

(** A world in which the condition variable of the pool, the pthread call
    at tick 2 of an initialisation that starts at tick 0, cannot be
    created. *)
Definition no_cond_world : world :=
  mk_world (fun _ => false)
           (fun _ => mk_select 1 0 true false false)
           (fun _ => mk_ioctl 0 0 9000 0)
           (fun _ => mk_open 0 3 2)
           (fun _ => true)
           (fun t => if Nat.eqb t 2 then 22 else 0).

(** * Properties *)

Ltac run_monad :=
  unfold bind, ret, get, modify, emit, tick, stop_with; cbn.

Lemma trace_record (e : event) (s : state) :
  trace (record e s) = trace s ++ [e].
Proof. reflexivity. Qed.

Lemma trace_advance (s : state) : trace (advance s) = trace s.
Proof. reflexivity. Qed.

(** ** Stream controller *)

Lemma control_noop (W : world) (enable : bool) (s : state) :
  capturing (run (dev s)) = enable ->
  _capture_control W enable s = Ok 0 s.
Proof.
  intros H. unfold _capture_control. run_monad.
  rewrite H, eqb_reflx. reflexivity.
Qed.

Lemma control_cases (W : world) (enable : bool) (s : state) (r : Z)
      (s' : state) :
  _capture_control W enable s = Ok r s' ->
  (capturing (run (dev s)) = enable /\ r = 0 /\ s' = s) \/
  (capturing (run (dev s)) = negb enable /\
   trace s' =
     trace s ++ [EvIoctl (if enable then VIDIOC_STREAMON else VIDIOC_STREAMOFF)
                   0 (ioctl_at W (now s))] /\
   ((enable = true /\ io_retval (ioctl_at W (now s)) < 0 /\ r = -1 /\
     capturing (run (dev s')) = capturing (run (dev s))) \/
    ((enable = false \/ 0 <= io_retval (ioctl_at W (now s))) /\ r = 0 /\
     capturing (run (dev s')) = enable))).
Proof.
  unfold _capture_control, xioctl. run_monad.
  destruct (capturing (run (dev s))) eqn:Hc, enable; cbn;
    try (intros H; inversion H; subst; left; auto; fail);
    destruct (io_retval (ioctl_at W (now s)) <? 0) eqn:Hr; cbn;
    intros H; inversion H; subst; clear H; right;
    (split; [reflexivity|]); (split; [reflexivity|]);
    try (apply Z.ltb_lt in Hr); try (apply Z.ltb_ge in Hr); cbn; auto.
Qed.

Lemma since_app (s s' : state) (d : list event) :
  trace s' = trace s ++ d -> since s s' = d.
Proof.
  intros H. unfold since. rewrite H.
  rewrite skipn_app, skipn_all, Nat.sub_diag. reflexivity.
Qed.

Lemma since_same (s : state) : since s s = [].
Proof. apply since_app. now rewrite app_nil_r. Qed.

Ltac log_eq :=
  unfold trace; cbn; rewrite <- ?app_assoc; cbn; reflexivity.

(** C6, as the code has it: a call whose requested state equals the recorded
    capturing flag issues no ioctl, changes nothing and returns 0.  Of two
    consecutive calls with [enable = true] over a clear flag, the first
    issues one VIDIOC_STREAMON.  When the driver accepts it, the flag is set
    and the second call is the no-op, so the two calls issue exactly one
    VIDIOC_STREAMON.  When it fails, the first call returns -1 and leaves
    the flag clear, and the second call issues VIDIOC_STREAMON again: two
    start operations for the two calls. *)
Theorem set_streaming_idempotent (W : world) (s : state) :
  (forall enable : bool,
      capturing (run (dev s)) = enable ->
      _capture_control W enable s = Ok 0 s) /\
  (capturing (run (dev s)) = false ->
   0 <= io_retval (ioctl_at W (now s)) ->
   exists s1 : state,
     _capture_control W true s = Ok 0 s1 /\
     capturing (run (dev s1)) = true /\
     since s s1 = [EvIoctl VIDIOC_STREAMON 0 (ioctl_at W (now s))] /\
     _capture_control W true s1 = Ok 0 s1) /\
  (capturing (run (dev s)) = false ->
   io_retval (ioctl_at W (now s)) < 0 ->
   exists (s1 : state) (r2 : Z) (s2 : state),
     _capture_control W true s = Ok (-1) s1 /\
     capturing (run (dev s1)) = false /\
     _capture_control W true s1 = Ok r2 s2 /\
     since s s2 = [EvIoctl VIDIOC_STREAMON 0 (ioctl_at W (now s));
                   EvIoctl VIDIOC_STREAMON 0 (ioctl_at W (S (now s)))]).
Proof.
  split; [intros enable; apply control_noop|].
  split.
  - intros Hc Hr.
    assert (E : (io_retval (ioctl_at W (now s)) <? 0) = false)
      by (apply Z.ltb_ge; lia).
    exists (set_capturing true
              (record (EvIoctl VIDIOC_STREAMON 0 (ioctl_at W (now s)))
                 (advance s))).
    split; [|split; [reflexivity|split]].
    + unfold _capture_control, xioctl. run_monad. rewrite Hc. cbn.
      rewrite E. reflexivity.
    + apply since_app. log_eq.
    + apply control_noop. reflexivity.
  - intros Hc Hr.
    assert (E : (io_retval (ioctl_at W (now s)) <? 0) = true)
      by (apply Z.ltb_lt; lia).
    set (s1 := record (EvIoctl VIDIOC_STREAMON 0 (ioctl_at W (now s)))
                 (advance s)).
    assert (H1 : _capture_control W true s = Ok (-1) s1).
    { unfold _capture_control, xioctl. run_monad. rewrite Hc. cbn.
      rewrite E. reflexivity. }
    assert (H2 : exists (r2 : Z) (s2 : state),
               _capture_control W true s1 = Ok r2 s2 /\
               trace s2
               = trace s1
                 ++ [EvIoctl VIDIOC_STREAMON 0 (ioctl_at W (S (now s)))]).
    { unfold _capture_control, xioctl. run_monad. rewrite Hc. cbn.
      destruct (io_retval (ioctl_at W (S (now s))) <? 0); cbn;
        do 2 eexists; (split; [reflexivity | log_eq]). }
    destruct H2 as (r2 & s2 & H2 & Ht).
    exists s1, r2, s2. split; [exact H1|]. split; [exact Hc|].
    split; [exact H2|].
    apply since_app. rewrite Ht. unfold s1. log_eq.
Qed.

Lemma set_streaming_idempotent_witness :
  (exists s1 : state,
      _capture_control (healthy_world 0) true (sample_state false) = Ok 0 s1 /\
      since (sample_state false) s1
      = [EvIoctl VIDIOC_STREAMON 0 (mk_ioctl 0 0 9000 0)] /\
      _capture_control (healthy_world 0) true s1 = Ok 0 s1) /\
  _capture_control (healthy_world 0) true (sample_state true)
  = Ok 0 (sample_state true).
Proof.
  destruct (set_streaming_idempotent (healthy_world 0) (sample_state false))
    as (_ & H2 & _).
  destruct (set_streaming_idempotent (healthy_world 0) (sample_state true))
    as (H1 & _).
  split.
  - destruct H2 as (s1 & Ha & _ & Hb & Hc); [reflexivity | cbn; lia|].
    exists s1. split; [exact Ha|]. split; [exact Hb | exact Hc].
  - apply H1. reflexivity.
Defined.

(** C6 as stated fails: over a clear flag and a driver that refuses to
    start, two consecutive calls with [enable = true] both return -1 and
    issue two VIDIOC_STREAMON, not one. *)
Lemma failed_start_is_issued_again :
  exists s1 s2 : state,
    _capture_control failing_ioctl_world true (sample_state false)
      = Ok (-1) s1 /\
    _capture_control failing_ioctl_world true s1 = Ok (-1) s2 /\
    since (sample_state false) s2
    = [EvIoctl VIDIOC_STREAMON 0 (mk_ioctl (-1) 0 0 0);
       EvIoctl VIDIOC_STREAMON 0 (mk_ioctl (-1) 0 0 0)] /\
    length (ioctls VIDIOC_STREAMON (since (sample_state false) s2)) = 2%nat.
Proof.
  do 2 eexists. split; [reflexivity|]. split; [reflexivity|].
  split; reflexivity.
Qed.

(** C9: stopping the stream is best effort.  With the capturing flag set, a
    call with [enable = false] whose VIDIOC_STREAMOFF fails still returns 0
    and clears the flag.  Over all calls, the result is -1 exactly when a
    start was requested, the flag was clear and VIDIOC_STREAMON failed, and
    then the flag is unchanged; in every other case the result is 0 and the
    flag equals the requested state. *)
Theorem stop_failure_not_escalated (W : world) (s : state) :
  (capturing (run (dev s)) = true ->
   io_retval (ioctl_at W (now s)) < 0 ->
   exists s' : state,
     _capture_control W false s = Ok 0 s' /\
     capturing (run (dev s')) = false /\
     since s s' = [EvIoctl VIDIOC_STREAMOFF 0 (ioctl_at W (now s))]) /\
  (forall (enable : bool) (r : Z) (s' : state),
     _capture_control W enable s = Ok r s' ->
     (r = -1 /\ enable = true /\ capturing (run (dev s)) = false /\
      io_retval (ioctl_at W (now s)) < 0 /\
      capturing (run (dev s')) = false) \/
     (r = 0 /\ capturing (run (dev s')) = enable /\
      ~ (enable = true /\ capturing (run (dev s)) = false /\
         io_retval (ioctl_at W (now s)) < 0))).
Proof.
  split.
  - intros Hc Hr.
    destruct (_capture_control W false s) as [r s'|h s'] eqn:E.
    + destruct (control_cases _ _ _ _ _ E) as [(Hd & _)|(_ & Ht & Hk)];
        [congruence|].
      destruct Hk as [(Hd & _)|(_ & -> & Hc')]; [discriminate|].
      exists s'. repeat split; auto. now apply since_app.
    + revert E. unfold _capture_control, xioctl. run_monad.
      rewrite Hc. cbn. rewrite andb_false_r. discriminate.
  - intros enable r s' E.
    destruct (control_cases _ _ _ _ _ E) as [(Hd & -> & ->)|(Hd & Ht & Hk)].
    + right. repeat split; auto. intros (-> & Hf & _). congruence.
    + destruct Hk as [(-> & Hr & -> & Hc')|(Hor & -> & Hc')].
      * left. cbn in Hd. repeat split; auto. congruence.
      * right. repeat split; auto. intros (-> & _ & Hneg).
        destruct Hor; [discriminate|lia].
Qed.

Lemma stop_failure_not_escalated_witness :
  exists s' : state,
    _capture_control failing_ioctl_world false (sample_state true) = Ok 0 s' /\
    capturing (run (dev s')) = false /\
    since (sample_state true) s'
      = [EvIoctl VIDIOC_STREAMOFF 0 (mk_ioctl (-1) 0 0 0)].
Proof.
  destruct (stop_failure_not_escalated failing_ioctl_world (sample_state true))
    as (H & _).
  apply H; [reflexivity | cbn; lia].
Defined.

(** ** Event monitor *)

(** C7: the event monitor always returns, with one VIDIOC_DQEVENT issued and
    one of two verdicts.  A dequeued (ioctl result 0) event of type
    V4L2_EVENT_SOURCE_CHANGE gives -1, reinit required; a dequeued
    V4L2_EVENT_EOS gives 0, ignore; an event that could not be dequeued or
    that has any other type gives 0, ignore. *)
Theorem handle_event_verdicts (W : world) (s : state) :
  exists (r : Z) (s' : state),
    _capture_handle_event W s = Ok r s' /\
    since s s' = [EvIoctl VIDIOC_DQEVENT 0 (ioctl_at W (now s))] /\
    (r = -1 \/ r = 0) /\
    (io_retval (ioctl_at W (now s)) = 0 ->
     u32 (io_type (ioctl_at W (now s))) = V4L2_EVENT_SOURCE_CHANGE ->
     r = -1 /\ verdict_of r = ReinitRequired) /\
    (io_retval (ioctl_at W (now s)) = 0 ->
     u32 (io_type (ioctl_at W (now s))) = V4L2_EVENT_EOS ->
     r = 0 /\ verdict_of r = Ignore) /\
    (io_retval (ioctl_at W (now s)) <> 0 ->
     r = 0 /\ verdict_of r = Ignore) /\
    (u32 (io_type (ioctl_at W (now s))) <> V4L2_EVENT_SOURCE_CHANGE ->
     r = 0 /\ verdict_of r = Ignore).
Proof.
  unfold _capture_handle_event, xioctl. run_monad.
  set (a := ioctl_at W (now s)).
  destruct (io_retval a =? 0) eqn:Hr.
  - apply Z.eqb_eq in Hr.
    destruct (u32 (io_type a) =? V4L2_EVENT_SOURCE_CHANGE) eqn:Hs.
    + apply Z.eqb_eq in Hs. eexists; eexists. split; [reflexivity|].
      split; [now apply since_app|].
      repeat split; auto; try (intros; exfalso; congruence).
      all: unfold V4L2_EVENT_SOURCE_CHANGE, V4L2_EVENT_EOS in *;
        intros; exfalso; lia.
    + apply Z.eqb_neq in Hs.
      destruct (u32 (io_type a) =? V4L2_EVENT_EOS);
        (eexists; eexists; split; [reflexivity|];
         split; [now apply since_app|];
         repeat split; auto; intros; exfalso; congruence).
  - apply Z.eqb_neq in Hr. eexists; eexists. split; [reflexivity|].
    split; [now apply since_app|].
    repeat split; auto; intros; exfalso; congruence.
Qed.

Lemma handle_event_verdicts_witness :
  exists (r : Z) (s' : state),
    _capture_handle_event
      (mk_world (fun _ => false) (fun _ => mk_select 1 0 false false true)
                (fun _ => mk_ioctl 0 0 0 5) (fun _ => mk_open 0 3 2)
                (fun _ => true) (fun _ => 0))
      (sample_state true) = Ok r s' /\
    r = -1 /\ verdict_of r = ReinitRequired.
Proof.
  destruct (handle_event_verdicts
      (mk_world (fun _ => false) (fun _ => mk_select 1 0 false false true)
                (fun _ => mk_ioctl 0 0 0 5) (fun _ => mk_open 0 3 2)
                (fun _ => true) (fun _ => 0))
      (sample_state true)) as (r & s' & H & _ & _ & Hsrc & _).
  exists r, s'. split; [exact H|].
  apply Hsrc; reflexivity.
Defined.

(** ** Mainloop *)

Lemma read_stop_eq (W : world) (s : state) :
  read_stop W s
  = Ok (stop_at W (now s)) (record (EvStop (stop_at W (now s))) (advance s)).
Proof. reflexivity. Qed.

Lemma handshake_app (n : Z) (d1 d2 : list event) (h : option Z) :
  handshake n h (d1 ++ d2)
  = match handshake n h d1 with
    | Some h' => handshake n h' d2
    | None => None
    end.
Proof.
  revert h. induction d1 as [|e d1 IH]; intros h; [reflexivity|].
  destruct e; cbn; auto.
  - destruct req; auto.
    + destruct (_ || _); auto. destruct h; auto.
    + destruct h; auto. destruct (_ =? _); auto.
  - destruct h; auto. destruct (_ =? _); auto.
Qed.

Ltac split_ifs :=
  repeat match goal with
         | |- context [if ?b then _ else _] =>
             let E := fresh "E" in destruct b eqn:E; cbn
         end.

Ltac use_eqns :=
  repeat match goal with
         | H : ?b = _ |- context [?b] => rewrite H; cbn
         end.

Ltac trace_eq :=
  unfold trace; cbn; rewrite <- ?app_assoc; cbn; reflexivity.

(** One round of the mainloop always returns; it leaves the device and the
    pool alone, and its calls respect the ownership handshake. *)
Lemma mainloop_body_spec (W : world) (fc : Z) (s : state) :
  exists (c : loop_ctl) (fc' : Z) (d : list event) (s' : state),
    mainloop_body W fc s = Ok (c, fc') s' /\
    trace s' = trace s ++ d /\
    dev s' = dev s /\ pool s' = pool s /\ nthreads s' = nthreads s /\
    (now s <= now s')%nat /\
    handshake (n_buffers (run (dev s))) None d = Some None.
Proof.
  unfold mainloop_body, frame_ready, pass_frame, _capture_grab_buffer,
    _capture_release_buffer, _capture_handle_event, jpeg_compress_buffer,
    select_, xioctl.
  run_monad. split_ifs.
  all: do 4 eexists; (split; [reflexivity|]); (split; [trace_eq|]).
  all: cbn; repeat split; auto; try lia.
  all: use_eqns; rewrite ?Z.eqb_refl; reflexivity.
Qed.

Lemma mainloop_unfold (W : world) (fuel : nat) (fc : Z) (s : state) :
  mainloop W (S fuel) fc s
  = if stop_at W (now s)
    then Ok tt (record (EvStop true) (advance s))
    else match mainloop_body W fc (record (EvStop false) (advance s)) with
         | Ok (Break, _) s' => Ok tt s'
         | Ok (Continue, fc') s' => mainloop W fuel fc' s'
         | Halt h s' => Halt h s'
         end.
Proof.
  cbn [mainloop]. cbv [bind read_stop emit modify tick ret].
  destruct (stop_at W (now s)); [reflexivity|].
  destruct (mainloop_body W fc _) as [[[|] fc'] s'|h s']; reflexivity.
Qed.

(** A run of the mainloop leaves the device and the pool alone, ends by a
    return or by lack of fuel, and its calls respect the handshake. *)
Lemma mainloop_spec (W : world) (fuel : nat) :
  forall (fc : Z) (s : state),
  exists d : list event,
    trace (final (mainloop W fuel fc s)) = trace s ++ d /\
    handshake (n_buffers (run (dev s))) None d = Some None /\
    dev (final (mainloop W fuel fc s)) = dev s /\
    pool (final (mainloop W fuel fc s)) = pool s /\
    nthreads (final (mainloop W fuel fc s)) = nthreads s /\
    (now s <= now (final (mainloop W fuel fc s)))%nat /\
    (forall (h : halt) (s' : state),
        mainloop W fuel fc s = Halt h s' -> h = OutOfFuel).
Proof.
  induction fuel as [|fuel IH]; intros fc s.
  - exists []. cbn. rewrite app_nil_r. repeat split; auto.
    intros h s' H. now inversion H.
  - rewrite mainloop_unfold.
    destruct (stop_at W (now s)) eqn:Hstop.
    + exists [EvStop true]. cbn. repeat split; auto. discriminate.
    + destruct (mainloop_body_spec W fc (record (EvStop false) (advance s)))
        as (c & fc' & d & s' & Hb & Ht & Hd & Hp & Hn & Hnow & Hh).
      rewrite Hb. cbn in Hd, Hp, Hn, Hh, Hnow.
      rewrite trace_record, trace_advance, <- app_assoc in Ht.
      destruct c.
      * destruct (IH fc' s') as (d' & Ht' & Hh' & Hd' & Hp' & Hn' & Hnow' & Hf).
        exists ((EvStop false :: d) ++ d').
        rewrite Ht', Ht, Hd', Hp', Hn', Hd, Hp, Hn.
        rewrite <- !app_assoc. repeat split; auto; try lia.
        rewrite handshake_app. cbn. rewrite Hh.
        rewrite Hd in Hh'. exact Hh'.
      * exists (EvStop false :: d). cbn.
        rewrite Ht, Hd, Hp, Hn. repeat split; auto; try lia. discriminate.
Qed.


(** A trace that respects the handshake releases what was acquired, in the
    same order. *)
Lemma handshake_balance (n : Z) (d : list event) :
  forall h h' : option Z,
    handshake n h d = Some h' ->
    released d ++ held_list h' = held_list h ++ acquired n d.
Proof.
  induction d as [|e d IH]; intros h h' H.
  - cbn in *. inversion H; subst. now rewrite app_nil_r.
  - destruct e; cbn in H; try (apply IH in H; exact H).
    + destruct req; try (apply IH in H; exact H).
      * cbn [acquired flat_map].
        destruct (_ || _).
        -- apply IH in H. exact H.
        -- destruct h; [discriminate|]. apply IH in H. cbn in *. exact H.
      * destruct h as [j|]; [|discriminate].
        destruct (arg =? j) eqn:E; [|discriminate].
        apply Z.eqb_eq in E. subst. apply IH in H.
        change (j :: (released d ++ held_list h') = j :: acquired n d).
        now rewrite H.
    + destruct h as [j|]; [|discriminate].
      destruct (idx =? j); [|discriminate]. apply IH in H. exact H.
Qed.

(** C3: in every run of the mainloop, whether it has returned or is cut off
    after any number of rounds, the calls made respect the ownership
    handshake and leave no buffer held: each successful acquisition (a
    VIDIOC_DQBUF that succeeds with a valid index) takes place with no
    buffer held, and each VIDIOC_QBUF gives back the buffer that is held,
    hence the same index and never twice; so the released indices are the
    acquired ones, one for one and in order.  This covers the skip path, the
    too-small path and the path through the compression. *)
Theorem acquire_release_paired (W : world) (fuel : nat) (fc : Z) (s : state) :
  handshake (n_buffers (run (dev s))) None
    (since s (final (mainloop W fuel fc s))) = Some None /\
  released (since s (final (mainloop W fuel fc s)))
  = acquired (n_buffers (run (dev s)))
      (since s (final (mainloop W fuel fc s))).
Proof.
  destruct (mainloop_spec W fuel fc s) as (d & Ht & Hh & _).
  rewrite (since_app _ _ _ Ht). split; [exact Hh|].
  apply handshake_balance in Hh. cbn in Hh.
  now rewrite app_nil_r in Hh.
Qed.

Ltac bool_hyps :=
  repeat match goal with
         | H : (_ <? _) = true |- _ => apply Z.ltb_lt in H
         | H : (_ <? _) = false |- _ => apply Z.ltb_ge in H
         | H : (_ <=? _) = true |- _ => apply Z.leb_le in H
         | H : (_ <=? _) = false |- _ => apply Z.leb_gt in H
         | H : (_ =? _) = true |- _ => apply Z.eqb_eq in H
         | H : (_ =? _) = false |- _ => apply Z.eqb_neq in H
         end.

(** A round whose wait reports the descriptor write-ready ends in [Break]. *)
Lemma body_write_ready (W : world) (fc : Z) (s : state) :
  0 < sel_retval (select_at W (now s)) ->
  sel_write (select_at W (now s)) = true ->
  exists (fc' : Z) (s' : state), mainloop_body W fc s = Ok (Break, fc') s'.
Proof.
  intros Hr Hw.
  unfold mainloop_body, frame_ready, pass_frame, _capture_grab_buffer,
    _capture_release_buffer, _capture_handle_event, jpeg_compress_buffer,
    select_, xioctl.
  run_monad. rewrite Hw. split_ifs.
  all: try (do 2 eexists; reflexivity).
  all: bool_hyps; exfalso; lia.
Qed.

(** C5: a round of the mainloop whose readiness wait reports the descriptor
    write-ready is the last round of the session: the round ends in [Break]
    and the mainloop returns at its end, whether or not the descriptor is
    read-ready or error-ready at the same time. *)
Theorem write_ready_ends_session (W : world) (fuel : nat) (fc : Z)
        (s : state) :
  stop_at W (now s) = false ->
  0 < sel_retval (select_at W (S (now s))) ->
  sel_write (select_at W (S (now s))) = true ->
  exists (fc' : Z) (s' : state),
    mainloop_body W fc (record (EvStop false) (advance s))
      = Ok (Break, fc') s' /\
    mainloop W (S fuel) fc s = Ok tt s'.
Proof.
  intros Hs Hr Hw.
  destruct (body_write_ready W fc (record (EvStop false) (advance s)) Hr Hw)
    as (fc' & s' & Hb).
  exists fc', s'. split; [exact Hb|].
  rewrite mainloop_unfold, Hs, Hb. reflexivity.
Qed.

Lemma write_ready_ends_session_witness :
  exists (fc' : Z) (s' : state),
    mainloop (mk_world (fun _ => false)
                       (fun _ => mk_select 2 0 true true false)
                       (fun _ => mk_ioctl 0 0 9000 0) (fun _ => mk_open 0 3 2)
                       (fun _ => true) (fun _ => 0))
             1 0 (sample_state true) = Ok tt s' /\
    mainloop_body (mk_world (fun _ => false)
                       (fun _ => mk_select 2 0 true true false)
                       (fun _ => mk_ioctl 0 0 9000 0) (fun _ => mk_open 0 3 2)
                       (fun _ => true) (fun _ => 0))
             0 (record (EvStop false) (advance (sample_state true)))
      = Ok (Break, fc') s'.
Proof.
  destruct (write_ready_ends_session
              (mk_world (fun _ => false)
                       (fun _ => mk_select 2 0 true true false)
                       (fun _ => mk_ioctl 0 0 9000 0) (fun _ => mk_open 0 3 2)
                       (fun _ => true) (fun _ => 0))
              0 0 (sample_state true))
    as (fc' & s' & Hb & Hm); [reflexivity | cbn; lia | reflexivity |].
  exists fc', s'. split; [exact Hm | exact Hb].
Defined.

(** ** Buffer exchange *)

(** C10: when the VIDIOC_DQBUF of a round succeeds with an index that is not
    below the negotiated buffer count, [_capture_grab_buffer] returns -1 and
    the mainloop returns at once: the calls of the round are the read of the
    stop flag, the wait and the VIDIOC_DQBUF, with no VIDIOC_QBUF, so the
    buffer the driver handed out is not given back. *)
Theorem invalid_index_not_released (W : world) (fuel : nat) (fc : Z)
        (s : state) :
  stop_at W (now s) = false ->
  0 < sel_retval (select_at W (S (now s))) ->
  sel_read (select_at W (S (now s))) = true ->
  0 <= io_retval (ioctl_at W (S (S (now s)))) ->
  n_buffers (run (dev s)) <= u32 (io_index (ioctl_at W (S (S (now s))))) ->
  exists (buf : v4l2_buffer) (s' : state),
    _capture_grab_buffer W
      (record (EvSelect (timeout (dev s)) (select_at W (S (now s))))
         (advance (record (EvStop false) (advance s))))
      = Ok (-1, buf) s' /\
    index buf = u32 (io_index (ioctl_at W (S (S (now s))))) /\
    mainloop W (S fuel) fc s = Ok tt s' /\
    since s s' = [EvStop false;
                  EvSelect (timeout (dev s)) (select_at W (S (now s)));
                  EvIoctl VIDIOC_DQBUF 0 (ioctl_at W (S (S (now s))))] /\
    dequeued (since s s') = [u32 (io_index (ioctl_at W (S (S (now s)))))] /\
    released (since s s') = [].
Proof.
  intros Hs Hr Hread Hio Hidx.
  assert (E1 : (sel_retval (select_at W (S (now s))) <? 0) = false)
    by (apply Z.ltb_ge; lia).
  assert (E2 : (sel_retval (select_at W (S (now s))) =? 0) = false)
    by (apply Z.eqb_neq; lia).
  assert (E3 : (io_retval (ioctl_at W (S (S (now s)))) <? 0) = false)
    by (apply Z.ltb_ge; lia).
  assert (E4 : (n_buffers (run (dev s))
                <=? u32 (io_index (ioctl_at W (S (S (now s)))))) = true)
    by (apply Z.leb_le; lia).
  rewrite mainloop_unfold, Hs.
  unfold mainloop_body, frame_ready, _capture_grab_buffer, select_, xioctl.
  run_monad. repeat (progress (rewrite ?Hread, ?E1, ?E2, ?E3, ?E4; cbn)).
  do 2 eexists. split; [reflexivity|]. split; [reflexivity|].
  split; [reflexivity|].
  match goal with
  | |- since s ?s' = ?d /\ _ =>
      assert (Hd : since s s' = d) by (apply since_app; trace_eq)
  end.
  split; [exact Hd|]. rewrite Hd. cbn. rewrite E3.
  split; reflexivity.
Qed.

Lemma invalid_index_not_released_witness :
  exists s' : state,
    mainloop (mk_world (fun _ => false)
                       (fun _ => mk_select 1 0 true false false)
                       (fun _ => mk_ioctl 0 7 9000 0) (fun _ => mk_open 0 3 2)
                       (fun _ => true) (fun _ => 0))
             1 0 (sample_state true) = Ok tt s' /\
    dequeued (since (sample_state true) s') = [7] /\
    released (since (sample_state true) s') = [].
Proof.
  destruct (invalid_index_not_released
              (mk_world (fun _ => false)
                       (fun _ => mk_select 1 0 true false false)
                       (fun _ => mk_ioctl 0 7 9000 0) (fun _ => mk_open 0 3 2)
                       (fun _ => true) (fun _ => 0))
              0 0 (sample_state true))
    as (buf & s' & _ & _ & Hm & _ & Hd & Hrel);
    [reflexivity | cbn; lia | reflexivity | cbn; lia | cbn; lia |].
  exists s'. split; [exact Hm|]. split; [exact Hd | exact Hrel].
Defined.

(** A round in which a good frame arrives: the frame is dropped by the skip
    policy, dropped for its size or forwarded, then released, and the
    mainloop goes on. *)
Lemma good_round (W : world) (fuel : nat) (fc : Z) (s : state) (idx size : Z) :
  good_frame W (n_buffers (run (dev s))) (now s) idx size ->
  mainloop W (S fuel) fc s
  = mainloop W fuel (next_count (dev s) fc) (after_frame W fc s).
Proof.
  intros (Hs & Hr & Hread & Hw & He & Hio & Hidx & Hsize & Hn & Hq).
  assert (E1 : (sel_retval (select_at W (S (now s))) <? 0) = false)
    by (apply Z.ltb_ge; lia).
  assert (E2 : (sel_retval (select_at W (S (now s))) =? 0) = false)
    by (apply Z.eqb_neq; lia).
  assert (E3 : (io_retval (ioctl_at W (S (S (now s)))) <? 0) = false)
    by (apply Z.ltb_ge; lia).
  assert (E4 : (n_buffers (run (dev s))
                <=? u32 (io_index (ioctl_at W (S (S (now s)))))) = false)
    by (apply Z.leb_gt; lia).
  assert (E5 : (io_retval (ioctl_at W (S (S (S (now s))))) <? 0) = false)
    by (apply Z.ltb_ge; lia).
  rewrite mainloop_unfold, Hs.
  unfold next_count, after_frame, skipped.
  unfold mainloop_body, frame_ready, pass_frame, _capture_grab_buffer,
    _capture_release_buffer, jpeg_compress_buffer, select_, xioctl.
  run_monad.
  repeat (progress (rewrite ?Hread, ?Hw, ?He, ?E1, ?E2, ?E3, ?E4, ?E5; cbn)).
  destruct (negb (every_frame (dev s) =? 0)
            && (fc <? s32 (s32 (every_frame (dev s)) - 1))) eqn:Hskip; cbn;
    repeat (progress (rewrite ?Hread, ?Hw, ?He, ?E1, ?E2, ?E3, ?E4, ?E5; cbn)).
  - reflexivity.
  - destruct (u32 (io_bytesused (ioctl_at W (S (S (now s)))))
              <? min_frame_size (dev s)) eqn:Hsmall; cbn;
      repeat (progress (rewrite ?Hread, ?Hw, ?He, ?E1, ?E2, ?E3, ?E4, ?E5;
                        cbn));
      reflexivity.
Qed.

(** What one such round adds to the trace. *)
Lemma good_round_events (W : world) (fc : Z) (s : state) (idx size : Z) :
  good_frame W (n_buffers (run (dev s))) (now s) idx size ->
  exists d : list event,
    trace (after_frame W fc s) = trace s ++ d /\
    forwarded d = (if negb (skipped (dev s) fc)
                      && negb (size <? min_frame_size (dev s))
                   then [idx] else []) /\
    released d = [idx] /\
    acquired (n_buffers (run (dev s))) d = [idx].
Proof.
  intros (Hs & Hr & Hread & Hw & He & Hio & Hidx & Hsize & Hn & Hq).
  assert (E3 : (io_retval (ioctl_at W (S (S (now s)))) <? 0) = false)
    by (apply Z.ltb_ge; lia).
  assert (E4 : (n_buffers (run (dev s))
                <=? u32 (io_index (ioctl_at W (S (S (now s)))))) = false)
    by (apply Z.leb_gt; lia).
  unfold after_frame. rewrite Hidx, Hsize.
  destruct (negb (skipped (dev s) fc)
            && negb (size <? min_frame_size (dev s))).
  - eexists. split; [trace_eq|]. cbn. rewrite E3, E4, Hidx. cbn. auto.
  - eexists. split; [trace_eq|]. cbn. rewrite E3, E4, Hidx. cbn. auto.
Qed.

Lemma forwarded_app (d1 d2 : list event) :
  forwarded (d1 ++ d2) = forwarded d1 ++ forwarded d2.
Proof. apply flat_map_app. Qed.

Lemma released_app (d1 d2 : list event) :
  released (d1 ++ d2) = released d1 ++ released d2.
Proof. apply flat_map_app. Qed.

Lemma acquired_app (n : Z) (d1 d2 : list event) :
  acquired n (d1 ++ d2) = acquired n d1 ++ acquired n d2.
Proof. apply flat_map_app. Qed.

(** C2: skip factor 3, minimum frame size 8000, fresh skip counter, and six
    frames of 9000, 9000, 500, 9000, 9000 and 9000 bytes that arrive one
    after the other without errors.  The skip policy drops the frames that
    come at counter 0 and 1 and keeps the one at counter 2, which resets the
    counter; the third frame, in a keep slot, is below the minimum size.
    The mainloop goes through the six rounds; in them only the sixth frame
    is handed to the compression, and the six buffers are released in their
    order of arrival. *)
Theorem scenario_six_frames (W : world) (s : state)
        (i1 i2 i3 i4 i5 i6 : Z) :
  every_frame (dev s) = 3 ->
  min_frame_size (dev s) = 8000 ->
  arrive W (n_buffers (run (dev s))) (now s)
    [(i1, 9000); (i2, 9000); (i3, 500); (i4, 9000); (i5, 9000); (i6, 9000)] ->
  (skipped (dev s) 0 = true /\ skipped (dev s) 1 = true /\
   skipped (dev s) 2 = false /\ next_count (dev s) 2 = 0 /\
   (500 <? min_frame_size (dev s)) = true) /\
  exists s6 : state,
    (forall fuel : nat,
        mainloop W (6 + fuel) 0 s = mainloop W fuel 0 s6) /\
    forwarded (since s s6) = [i6] /\
    released (since s s6) = [i1; i2; i3; i4; i5; i6] /\
    acquired (n_buffers (run (dev s))) (since s s6)
      = [i1; i2; i3; i4; i5; i6].
Proof.
  intros Hevery Hmin (G1 & G2 & G3 & G4 & G5 & G6 & _).
  split; [unfold next_count, skipped; rewrite Hevery, Hmin;
          repeat split; reflexivity|].
  set (s1 := after_frame W 0 s).
  set (s2 := after_frame W 1 s1).
  set (s3 := after_frame W 2 s2).
  set (s4 := after_frame W 0 s3).
  set (s5 := after_frame W 1 s4).
  set (s6 := after_frame W 2 s5).
  assert (Hc0 : next_count (dev s) 0 = 1)
    by (unfold next_count, skipped; rewrite Hevery; reflexivity).
  assert (Hc1 : next_count (dev s) 1 = 2)
    by (unfold next_count, skipped; rewrite Hevery; reflexivity).
  assert (Hc2 : next_count (dev s) 2 = 0)
    by (unfold next_count, skipped; rewrite Hevery; reflexivity).
  exists s6. split.
  - intros fuel.
    change (6 + fuel)%nat with (S (S (S (S (S (S fuel)))))).
    rewrite (good_round W _ 0 s i1 9000 G1), Hc0. fold s1.
    rewrite (good_round W _ 1 s1 i2 9000 G2). cbn [dev after_frame s1].
    rewrite Hc1. fold s1. fold s2.
    rewrite (good_round W _ 2 s2 i3 500 G3). cbn [dev after_frame s1 s2].
    rewrite Hc2. fold s1. fold s2. fold s3.
    rewrite (good_round W _ 0 s3 i4 9000 G4).
    change (dev s3) with (dev s). rewrite Hc0. fold s4.
    rewrite (good_round W _ 1 s4 i5 9000 G5).
    change (dev s4) with (dev s). rewrite Hc1. fold s5.
    rewrite (good_round W _ 2 s5 i6 9000 G6).
    change (dev s5) with (dev s). rewrite Hc2. reflexivity.
  - destruct (good_round_events W 0 s i1 9000 G1) as (d1 & T1 & F1 & R1 & A1).
    destruct (good_round_events W 1 s1 i2 9000 G2) as (d2 & T2 & F2 & R2 & A2).
    destruct (good_round_events W 2 s2 i3 500 G3) as (d3 & T3 & F3 & R3 & A3).
    destruct (good_round_events W 0 s3 i4 9000 G4) as (d4 & T4 & F4 & R4 & A4).
    destruct (good_round_events W 1 s4 i5 9000 G5) as (d5 & T5 & F5 & R5 & A5).
    destruct (good_round_events W 2 s5 i6 9000 G6) as (d6 & T6 & F6 & R6 & A6).
    change (dev s1) with (dev s) in *. change (dev s2) with (dev s) in *.
    change (dev s3) with (dev s) in *. change (dev s4) with (dev s) in *.
    change (dev s5) with (dev s) in *.
    unfold skipped in F1, F2, F3, F4, F5, F6.
    rewrite Hevery, Hmin in F1, F2, F3, F4, F5, F6.
    cbn in F1, F2, F3, F4, F5, F6.
    fold s1 in T1. fold s2 in T2. fold s3 in T3. fold s4 in T4.
    fold s5 in T5. fold s6 in T6.
    assert (T : trace s6 = trace s ++ d1 ++ d2 ++ d3 ++ d4 ++ d5 ++ d6).
    { rewrite T6, T5, T4, T3, T2, T1. now rewrite <- !app_assoc. }
    rewrite (since_app _ _ _ T).
    rewrite !forwarded_app, !released_app, !acquired_app.
    rewrite F1, F2, F3, F4, F5, F6, R1, R2, R3, R4, R5, R6,
      A1, A2, A3, A4, A5, A6.
    repeat split; reflexivity.
Qed.


Lemma scenario_six_frames_witness :
  exists s6 : state,
    mainloop scenario_world 7 0 (sample_state true)
      = mainloop scenario_world 1 0 s6 /\
    forwarded (since (sample_state true) s6) = [1] /\
    released (since (sample_state true) s6) = [0; 1; 0; 1; 0; 1].
Proof.
  destruct (scenario_six_frames scenario_world (sample_state true)
              0 1 0 1 0 1) as (_ & s6 & Hm & Hf & Hr & _).
  - reflexivity.
  - reflexivity.
  - repeat split; try (vm_compute; reflexivity); vm_compute; discriminate.
  - exists s6. split; [exact (Hm 1%nat)|]. split; [exact Hf | exact Hr].
Defined.

(** ** Worker threads *)

Lemma worker_returns (stop : nat -> bool) (fuel : nat) :
  forall k : nat,
    _capture_worker_thread fuel stop k = Some tt <->
    exists j : nat, (k <= j <= k + fuel)%nat /\ stop j = true.
Proof.
  induction fuel as [|fuel IH]; intros k; cbn.
  - destruct (stop k) eqn:E; split; intros H; auto.
    + exists k. split; [lia | exact E].
    + discriminate.
    + destruct H as (j & Hj & Hs). replace j with k in Hs by lia. congruence.
  - destruct (stop k) eqn:E; split; intros H; auto.
    + exists k. split; [lia | exact E].
    + apply IH in H. destruct H as (j & Hj & Hs). exists j. split; [lia|auto].
    + apply IH. destruct H as (j & Hj & Hs). exists j. split; [|exact Hs].
      destruct (Nat.eq_dec j k) as [->|]; [congruence | lia].
Qed.

Lemma thread_exited_stop (W : world) (t0 t : nat) :
  thread_exited W t0 t = true ->
  exists u : nat, (t0 <= u < t)%nat /\ stop_at W u = true.
Proof.
  unfold thread_exited.
  destruct (t - t0)%nat as [|reads] eqn:E; [discriminate|].
  destruct (_capture_worker_thread reads (stop_at W) t0) as [[]|] eqn:Hw;
    [|discriminate].
  intros _. apply worker_returns in Hw. destruct Hw as (j & Hj & Hs).
  exists j. split; [lia | exact Hs].
Qed.

Lemma stop_seen_mono (W : world) (s s' : state) :
  (now s <= now s')%nat -> stop_seen W s -> stop_seen W s'.
Proof. intros H (u & Hu & Hs). exists u. split; [lia | exact Hs]. Qed.

Lemma stop_seen_latch (W : world) (s : state) :
  stop_seen W s -> latch (stop_at W) -> stop_at W (now s) = true.
Proof. intros (u & Hu & Hs) L. apply (L u); [lia | exact Hs]. Qed.

Lemma wait_thread_ok (W : world) (fuel : nat) (t0 : nat) :
  forall s s' : state,
    wait_thread W fuel t0 s = Ok tt s' ->
    thread_exited W t0 (now s') = true /\
    dev s' = dev s /\ pool s' = pool s /\ nthreads s' = nthreads s /\
    log s' = log s /\ (now s <= now s')%nat.
Proof.
  induction fuel as [|fuel IH]; intros s s'; cbn;
    destruct (thread_exited W t0 (now s)) eqn:E; intros H;
    try (inversion H; subst; repeat split; auto; fail);
    try discriminate.
  apply IH in H. cbn in H.
  destruct H as (H1 & H2 & H3 & H4 & H5 & H6). repeat split; auto. lia.
Qed.

(** ** Reasoning on the monad *)

Lemma bind_ok {A B} (m : M A) (f : A -> M B) (s s'' : state) (b : B) :
  bind m f s = Ok b s'' ->
  exists (a : A) (s' : state), m s = Ok a s' /\ f a s' = Ok b s''.
Proof.
  unfold bind. destruct (m s) as [a s'|h s']; [|discriminate].
  intros H. now exists a, s'.
Qed.

Lemma assert_zero_ok (m : M Z) (s s' : state) :
  assert_zero m s = Ok tt s' -> m s = Ok 0 s'.
Proof.
  intros H. apply bind_ok in H. destruct H as (r & s1 & Hm & H).
  destruct (r =? 0) eqn:E; [|discriminate].
  apply Z.eqb_eq in E. inversion H; subst. exact Hm.
Qed.

(** An invariant of the rounds of a [for] loop holds when it returns. *)
Lemma for_ok (I : nat -> state -> Prop) (body : Z -> M unit) (count : nat) :
  forall (from : Z) (k : nat) (s s' : state),
    (forall (j : nat) (idx : Z) (s1 s2 : state),
        I j s1 -> body idx s1 = Ok tt s2 -> I (S j) s2) ->
    I k s ->
    for_ count from body s = Ok tt s' ->
    I (k + count)%nat s'.
Proof.
  induction count as [|count IH]; intros from k s s' Hbody Hk H.
  - inversion H; subst. now rewrite Nat.add_0_r.
  - cbn in H. apply bind_ok in H. destruct H as ([] & s1 & H1 & H2).
    replace (k + S count)%nat with (S k + count)%nat by lia.
    eapply IH; eauto.
Qed.

Lemma pthread_call_eq (W : world) (op : pthread_op) (s : state) :
  pthread_call W op s
  = Ok (pthread_at W (now s))
       (record (EvPthread op (pthread_at W (now s))) (advance s)).
Proof. reflexivity. Qed.

Lemma pthread_join_ok (W : world) (fuel t0 : nat) (s s' : state) :
  pthread_join W fuel t0 s = Ok 0 s' ->
  dev s' = dev s /\ pool s' = pool s /\
  nthreads s' = pred (nthreads s) /\ (now s < now s')%nat /\
  exists u : nat, (t0 <= u < now s')%nat /\ stop_at W u = true.
Proof.
  intros H. unfold pthread_join in H.
  apply bind_ok in H. destruct H as ([] & s1 & Hw & H).
  apply wait_thread_ok in Hw.
  destruct Hw as (He & Hd & Hp & Hn & Hl & Hnow).
  revert H. run_monad.
  destruct (pthread_at W (now s1) =? 0) eqn:E; cbn; intros H;
    inversion H; subst; cbn; [|rewrite H1 in E; discriminate].
  rewrite Hd, Hp, Hn. repeat split; auto; try lia.
  apply thread_exited_stop in He. destruct He as (u & Hu & Hs).
  exists u. split; [lia | exact Hs].
Qed.

(** One round of the loop of [_capture_destroy_workers]. *)
Lemma destroy_round_ok (W : world) (fuel : nat) (ws : list worker) (idx : Z)
      (s s' : state) :
  match nth_error ws (Z.to_nat idx) with
  | Some w =>
      assert_zero (pthread_join W fuel (tid w)) ;;;
      assert_zero (pthread_call W CondDestroy) ;;;
      assert_zero (pthread_call W MutexDestroy)
  | None => stop_with OutOfBounds
  end s = Ok tt s' ->
  dev s' = dev s /\ pool s' = pool s /\
  nthreads s' = pred (nthreads s) /\ (now s < now s')%nat /\
  stop_seen W s'.
Proof.
  destruct (nth_error ws (Z.to_nat idx)) as [w|]; [|discriminate].
  intros H.
  apply bind_ok in H. destruct H as ([] & s1 & H1 & H).
  apply bind_ok in H. destruct H as ([] & s2 & H2 & H3).
  apply assert_zero_ok, pthread_join_ok in H1.
  apply assert_zero_ok in H2. apply assert_zero_ok in H3.
  rewrite pthread_call_eq in H2, H3.
  inversion H2; subst; clear H2. inversion H3; subst; clear H3. cbn.
  destruct H1 as (Hd & Hp & Hn & Hnow & u & Hu & Hs).
  repeat split; auto; try lia. exists u. cbn. split; [lia | exact Hs].
Qed.

(** [_capture_destroy_workers], when it returns: the pool is empty; an
    existing pool had each of its [n_buffers] threads joined, which needs
    the stop signal as soon as there is one thread. *)
Lemma destroy_workers_ok (W : world) (fuel : nat) (s s' : state) :
  _capture_destroy_workers W fuel s = Ok tt s' ->
  workers (pool s') = None /\ dev s' = dev s /\ (now s <= now s')%nat /\
  match workers (pool s) with
  | None => nthreads s' = nthreads s
  | Some ws =>
      nthreads s' = (nthreads s - Z.to_nat (n_buffers (run (dev s))))%nat /\
      (0 < n_buffers (run (dev s)) -> stop_seen W s')
  end.
Proof.
  unfold _capture_destroy_workers. intros H.
  apply bind_ok in H. destruct H as (s0 & s0' & Hget & H).
  inversion Hget; subst s0 s0'; clear Hget.
  apply bind_ok in H. destruct H as ([] & s1 & H1 & H2).
  inversion H2; subst s'; clear H2. cbn.
  destruct (workers (pool s)) as [ws|] eqn:Hws.
  - apply bind_ok in H1. destruct H1 as ([] & s2 & Hfor & H1).
    apply bind_ok in H1. destruct H1 as ([] & s3 & Hc & H1).
    apply bind_ok in H1. destruct H1 as ([] & s4 & Hm & Hfree).
    apply assert_zero_ok in Hc. apply assert_zero_ok in Hm.
    rewrite pthread_call_eq in Hc, Hm.
    inversion Hc; subst; clear Hc. inversion Hm; subst; clear Hm.
    inversion Hfree; subst; clear Hfree. cbn.
    pose (I := fun (k : nat) (st : state) =>
                 dev st = dev s /\ pool st = pool s /\
                 nthreads st = (nthreads s - k)%nat /\
                 (now s <= now st)%nat /\
                 ((0 < k)%nat -> stop_seen W st)).
    assert (HI : I (0 + Z.to_nat (n_buffers (run (dev s))))%nat s2).
    { eapply (for_ok I); [|
        |exact Hfor].
      - intros j idx s5 s6 (Hd & Hp & Hn & Hnow & Hst) Hb.
        apply destroy_round_ok in Hb.
        destruct Hb as (Hd' & Hp' & Hn' & Hnow' & Hst').
        unfold I. rewrite Hd', Hp', Hn', Hd, Hp, Hn.
        repeat split; auto; lia.
      - unfold I. repeat split; auto; lia. }
    destruct HI as (Hd & Hp & Hn & Hnow & Hst). cbn in Hn.
    rewrite Hd. repeat split; auto; try lia.
    intros Hpos.
    apply (stop_seen_mono W s2); [cbn; lia|]. apply Hst. lia.
  - inversion H1; subst. cbn. repeat split; auto.
Qed.


Lemma healthy_latch (n : nat) : latch (stop_at (healthy_world n)).
Proof.
  intros t u Htu Ht. unfold healthy_world, stop_at in *.
  apply Nat.leb_le in Ht. apply Nat.leb_le. lia.
Qed.

(** C8: a worker thread returns exactly when one of its reads of the stop
    flag sees it asserted, having done nothing but read the flag.  Hence
    the teardown of a pool of at least one worker, which joins each of
    them, returns only when the stop signal has been asserted, and, the
    signal being a latch, is asserted at the return.  The same holds of the
    teardown that [_capture_init] starts with, so that a session is not
    initialised again over an existing pool while the stop signal is
    clear. *)
Theorem teardown_waits_for_stop (W : world) (fuel : nat) (s : state) :
  (forall (stop : nat -> bool) (k : nat),
      (exists rounds : nat,
          _capture_worker_thread rounds stop k = Some tt) <->
      (exists j : nat, (k <= j)%nat /\ stop j = true)) /\
  (forall s' : state,
      workers (pool s) <> None ->
      0 < n_buffers (run (dev s)) ->
      _capture_destroy_workers W fuel s = Ok tt s' ->
      stop_seen W s' /\ (latch (stop_at W) -> stop_at W (now s') = true)) /\
  (forall (r : Z) (s' : state),
      workers (pool s) <> None ->
      0 < n_buffers (run (dev s)) ->
      _capture_init W fuel s = Ok r s' ->
      exists s1 : state,
        _capture_destroy_workers W fuel s = Ok tt s1 /\
        stop_seen W s1 /\
        (latch (stop_at W) -> stop_at W (now s1) = true)).
Proof.
  split; [|split].
  - intros stop k. split.
    + intros (rounds & H). apply worker_returns in H.
      destruct H as (j & Hj & Hs). exists j. split; [lia | exact Hs].
    + intros (j & Hj & Hs). exists (j - k)%nat. apply worker_returns.
      exists j. split; [lia | exact Hs].
  - intros s' Hpool Hn H. apply destroy_workers_ok in H.
    destruct H as (_ & _ & _ & Hcase).
    destruct (workers (pool s)) as [ws|]; [|congruence].
    destruct Hcase as (_ & Hst). specialize (Hst Hn).
    split; [exact Hst|]. now apply stop_seen_latch.
  - intros r s' Hpool Hn H. unfold _capture_init in H.
    apply bind_ok in H. destruct H as ([] & s1 & H1 & _).
    exists s1. split; [exact H1|].
    apply destroy_workers_ok in H1. destruct H1 as (_ & _ & _ & Hcase).
    destruct (workers (pool s)) as [ws|]; [|congruence].
    destruct Hcase as (_ & Hst). specialize (Hst Hn).
    split; [exact Hst|]. now apply stop_seen_latch.
Qed.

Lemma teardown_waits_for_stop_witness :
  exists s' : state,
    _capture_destroy_workers (healthy_world 4) 5 pooled_state = Ok tt s' /\
    stop_seen (healthy_world 4) s' /\
    stop_at (healthy_world 4) (now s') = true.
Proof.
  destruct (teardown_waits_for_stop (healthy_world 4) 5 pooled_state)
    as (_ & H & _).
  eexists. split; [vm_compute; reflexivity|].
  match goal with
  | |- stop_seen _ ?s' /\ _ =>
      destruct (H s') as (H1 & H2);
        [cbn; discriminate | cbn; lia | vm_compute; reflexivity |]
  end.
  split; [exact H1|]. apply H2. apply healthy_latch.
Defined.

(** ** Worker pool initialisation *)

Lemma upd_length {A} (l : list A) (x : A) :
  forall i : nat, length (upd l i x) = length l.
Proof.
  induction l as [|a l IH]; intros [|i]; cbn; auto.
Qed.

(** What an asserted pthread call does: it returns 0 and is logged, or the
    assertion fails right after the call. *)
Lemma assert_call (W : world) (op : pthread_op) (s : state) :
  (pthread_at W (now s) = 0 /\
   assert_zero (pthread_call W op) s
   = Ok tt (record (EvPthread op 0) (advance s))) \/
  (pthread_at W (now s) <> 0 /\
   assert_zero (pthread_call W op) s
   = Halt AssertFailed
       (record (EvPthread op (pthread_at W (now s))) (advance s))).
Proof.
  unfold assert_zero, bind. rewrite pthread_call_eq.
  destruct (pthread_at W (now s) =? 0) eqn:E.
  - apply Z.eqb_eq in E. left. rewrite E. auto.
  - apply Z.eqb_neq in E. right. auto.
Qed.


(** One round of the spawning loop over an allocated pool: the worker gets
    its thread, or an assertion fails on a pthread call. *)
Lemma spawn_worker_cases (W : world) (idx : Z) (s : state) (ws : list worker) :
  workers (pool s) = Some ws ->
  (exists s' : state,
      spawn_worker W idx s = Ok tt s' /\ dev s' = dev s /\
      (exists ws' : list worker,
          workers (pool s') = Some ws' /\ length ws' = length ws) /\
      nthreads s' = S (nthreads s) /\ (now s < now s')%nat) \/
  (exists s' : state,
      spawn_worker W idx s = Halt AssertFailed s' /\ failed_init s').
Proof.
  intros Hws. unfold spawn_worker, assert_zero, pthread_call, pthread_create,
    set_workers.
  run_monad.
  destruct (pthread_at W (now s) =? 0) eqn:E1; cbn.
  - destruct (pthread_at W (S (now s)) =? 0) eqn:E2; cbn.
    + destruct (pthread_at W (S (S (now s))) =? 0) eqn:E3; cbn;
        rewrite Hws; cbn; rewrite ?E3; cbn.
      * left. eexists. split; [reflexivity|]. cbn.
        repeat split; auto; try lia.
        eexists. split; [reflexivity|]. apply upd_length.
      * right. eexists. split; [reflexivity|].
        exists Create, (pthread_at W (S (S (now s)))). cbn.
        apply Z.eqb_neq in E3. auto.
    + right. eexists. split; [reflexivity|].
      exists CondInit, (pthread_at W (S (now s))). cbn.
      apply Z.eqb_neq in E2. auto.
  - right. eexists. split; [reflexivity|].
    exists MutexInit, (pthread_at W (now s)). cbn.
    apply Z.eqb_neq in E1. auto.
Qed.

Lemma spawn_loop_cases (W : world) (count : nat) :
  forall (from : Z) (s : state) (ws : list worker),
    workers (pool s) = Some ws ->
    match for_ count from (spawn_worker W) s with
    | Ok _ s' =>
        dev s' = dev s /\
        (exists ws' : list worker,
            workers (pool s') = Some ws' /\ length ws' = length ws) /\
        nthreads s' = (nthreads s + count)%nat /\ (now s <= now s')%nat
    | Halt h s' => h = AssertFailed /\ failed_init s'
    end.
Proof.
  induction count as [|count IH]; intros from s ws Hws; cbn.
  - repeat split; auto. now exists ws.
  - unfold bind.
    destruct (spawn_worker_cases W from s ws Hws)
      as [(s1 & H1 & Hd & (ws1 & Hws1 & Hlen) & Hn & Hnow)|(s1 & H1 & Hf)];
      rewrite H1; [|auto].
    specialize (IH (from + 1) s1 ws1 Hws1).
    destruct (for_ count (from + 1) (spawn_worker W) s1) as [[] s2|h s2];
      [|exact IH].
    destruct IH as (Hd2 & (ws2 & Hws2 & Hlen2) & Hn2 & Hnow2).
    rewrite Hd2, Hd, Hn2, Hn. repeat split; auto; try lia.
    exists ws2. split; [exact Hws2 | lia].
Qed.

(** The outcomes of [_capture_init_workers]: -1 when the allocation fails, 0
    with a pool of [n_buffers] threads, or an abort on a failed assertion. *)
Lemma init_workers_cases (W : world) (s : state) :
  match _capture_init_workers W s with
  | Ok r s' =>
      dev s' = dev s /\ (now s < now s')%nat /\
      ((r = -1 /\ calloc_at W (now s) = false /\
        workers (pool s') = None /\ nthreads s' = nthreads s /\
        since s s' = [EvCalloc (n_buffers (run (dev s))) false]) \/
       (r = 0 /\ calloc_at W (now s) = true /\
        exists ws : list worker,
          workers (pool s') = Some ws /\
          length ws = Z.to_nat (n_buffers (run (dev s))) /\
          nthreads s'
          = (nthreads s + Z.to_nat (n_buffers (run (dev s))))%nat))
  | Halt h s' =>
      h = AssertFailed /\ calloc_at W (now s) = true /\ failed_init s'
  end.
Proof.
  unfold _capture_init_workers.
  cbv [bind get ret calloc set_workers modify emit tick].
  change (now (with_pool (mk_pool None) s)) with (now s).
  destruct (calloc_at W (now s)) eqn:Hc; cbv [negb].
  - set (s1 := with_pool _ _).
    destruct (assert_call W MutexInit s1) as [(_ & H1)|(Hz & H1)];
      rewrite H1; clear H1.
    + set (s2 := record _ _).
      destruct (assert_call W CondInit s2) as [(_ & H2)|(Hz & H2)];
        rewrite H2; clear H2.
      * set (s3 := record _ _).
        assert (Hws : workers (pool s3)
                      = Some (repeat (mk_worker O 0)
                                (Z.to_nat (n_buffers (run (dev s))))))
          by reflexivity.
        pose proof (spawn_loop_cases W (Z.to_nat (n_buffers (run (dev s))))
                      0 s3 _ Hws) as Hloop.
        destruct (for_ _ 0 (spawn_worker W) s3) as [[] s4|h s4].
        -- destruct Hloop as (Hd & (ws & Hw & Hlen) & Hn & Hnow).
           cbn in Hd, Hn, Hnow. rewrite Hd.
           repeat split; auto; try lia. right. repeat split; auto.
           exists ws. rewrite repeat_length in Hlen. auto.
        -- destruct Hloop as (-> & Hf). auto.
      * repeat split; auto.
        exists CondInit, (pthread_at W (now s2)). cbn. auto.
    + repeat split; auto.
      exists MutexInit, (pthread_at W (now s1)). cbn. auto.
  - repeat split; auto. left. repeat split; auto.
    apply since_app. trace_eq.
Qed.

(** ** Session initialisation and supervisor *)

(** The stream controller always returns and only touches the capturing
    flag. *)
Lemma control_total (W : world) (enable : bool) (s : state) :
  exists (r : Z) (s' : state),
    _capture_control W enable s = Ok r s' /\
    pool s' = pool s /\ nthreads s' = nthreads s /\
    n_buffers (run (dev s')) = n_buffers (run (dev s)) /\
    (now s <= now s')%nat /\ (r = 0 \/ r = -1) /\
    (r = 0 -> capturing (run (dev s')) = enable) /\
    (enable = false -> r = 0).
Proof.
  unfold _capture_control, xioctl. run_monad.
  destruct enable, (capturing (run (dev s))) eqn:Hc; cbn;
    try destruct (io_retval (ioctl_at W (now s)) <? 0); cbn;
    do 2 eexists; (split; [reflexivity|]); cbn;
    repeat split; auto; try lia; try discriminate.
Qed.

Lemma device_close_eq (W : world) (s : state) :
  exists s' : state,
    device_close s = Ok tt s' /\
    pool s' = pool s /\ nthreads s' = nthreads s /\ now s' = now s /\
    n_buffers (run (dev s')) = n_buffers (run (dev s)) /\
    capturing (run (dev s')) = capturing (run (dev s)) /\
    fd (run (dev s')) = -1 /\ log s' = EvClose :: log s.
Proof.
  eexists. split; [reflexivity|]. cbn. repeat split; auto.
Qed.

Lemma device_open_eq (W : world) (s : state) :
  exists (r : Z) (s' : state),
    device_open W s = Ok r s' /\
    pool s' = pool s /\ nthreads s' = nthreads s /\ (now s <= now s')%nat.
Proof.
  unfold device_open. run_monad.
  destruct (op_retval (open_at W (now s)) <? 0); cbn;
    do 2 eexists; (split; [reflexivity|]); cbn; repeat split; auto.
Qed.

Tactic Notation "inv_bind" hyp(H) "as" ident(a) ident(s) ident(H1) :=
  apply bind_ok in H; destruct H as (a & s & H1 & H).

Ltac subst_eq H :=
  match type of H with
  | ?x = ?y => first [is_var x; subst x | is_var y; subst y | clear H]
  end.

Ltac inv_ok H :=
  let Ha := fresh "Ha" in
  let Hs := fresh "Hs" in
  cbv beta delta [ret get modify emit tick] in H;
  match type of H with
  | Ok ?a ?s = Ok ?b ?t =>
      assert (Ha : a = b) by congruence;
      assert (Hs : s = t) by congruence;
      clear H; subst_eq Ha; subst_eq Hs
  end.






(** When the stop signal is asserted at the entry, [capture_loop] does
    return: nothing is opened and the teardown has nothing to wait for. *)
Lemma capture_loop_returns_when_stopped (W : world) (fuel : nat) (s : state) :
  stop_at W (now s) = true ->
  exists s' : state, capture_loop W (S fuel) s = Ok tt s'.
Proof.
  intros Hstop. unfold capture_loop, set_workers.
  cbn [sessions]. unfold _capture_init_loop. cbn [init_loop].
  cbv [bind modify read_stop tick emit ret].
  change (now (with_pool (mk_pool None) s)) with (now s).
  rewrite Hstop. cbn [Z.eqb].
  set (s1 := record _ _).
  assert (Hd : _capture_destroy_workers W (S fuel) s1
               = Ok tt (with_pool (mk_pool None) s1)) by reflexivity.
  rewrite Hd.
  destruct (control_total W false (with_pool (mk_pool None) s1))
    as (r & s2 & E & _). rewrite E.
  destruct (device_close_eq W s2) as (s3 & E3 & _). rewrite E3.
  now exists s3.
Qed.

(** An initialisation attempt whose allocation of the pool fails: the device
    is closed again, the supervisor sleeps for the error delay and tries
    again. *)
Lemma alloc_failure_retries (W : world) (fuel : nat) (retval : Z) (s : state) :
  workers (pool s) = None ->
  capturing (run (dev s)) = false ->
  stop_at W (now s) = false ->
  0 <= op_retval (open_at W (S (now s))) ->
  0 <= io_retval (ioctl_at W (S (S (now s)))) ->
  calloc_at W (S (S (S (now s)))) = false ->
  exists s' : state,
    init_loop W (S fuel) retval s = init_loop W fuel (-1) s' /\
    since s s'
    = [EvStop false; EvClose; EvOpen (op_retval (open_at W (S (now s))));
       EvIoctl VIDIOC_STREAMON 0 (ioctl_at W (S (S (now s))));
       EvCalloc (u32 (op_n_buffers (open_at W (S (now s))))) false;
       EvClose; EvSleep (error_timeout (dev s))] /\
    workers (pool s') = None.
Proof.
  intros Hpool Hcap Hstop Hopen Hio Hcalloc.
  assert (E1 : (op_retval (open_at W (S (now s))) <? 0) = false)
    by (apply Z.ltb_ge; lia).
  assert (E2 : (io_retval (ioctl_at W (S (S (now s)))) <? 0) = false)
    by (apply Z.ltb_ge; lia).
  cbn [init_loop].
  unfold _capture_init, _capture_destroy_workers, _capture_control,
    _capture_init_workers, device_open, device_close, read_stop, sleep,
    xioctl, calloc, set_workers.
  run_monad.
  repeat (progress (rewrite ?Hpool, ?Hcap, ?Hstop, ?E1, ?E2, ?Hcalloc; cbn)).
  eexists. split; [reflexivity|]. split; [|reflexivity].
  apply since_app. trace_eq.
Qed.

(** A round of the spawning loop that returns has made its three pthread
    calls, and each of them returned 0. *)
Lemma spawn_worker_calls (W : world) (idx : Z) (s s' : state) :
  spawn_worker W idx s = Ok tt s' ->
  pthread_at W (now s) = 0 /\ pthread_at W (S (now s)) = 0 /\
  pthread_at W (S (S (now s))) = 0 /\
  trace s' = trace s ++ worker_init_calls /\
  now s' = S (S (S (now s))).
Proof.
  unfold spawn_worker, assert_zero, pthread_call, pthread_create,
    set_workers.
  run_monad.
  destruct (pthread_at W (now s) =? 0) eqn:E1; cbn; [|discriminate].
  destruct (pthread_at W (S (now s)) =? 0) eqn:E2; cbn; [|discriminate].
  destruct (pthread_at W (S (S (now s))) =? 0) eqn:E3; cbn;
    destruct (workers (pool s)); cbn; rewrite ?E3; cbn; try discriminate.
  bool_hyps. intros H. inversion H; subst.
  repeat split; auto. unfold worker_init_calls. rewrite E1, E2, E3.
  trace_eq.
Qed.

Lemma spawn_loop_calls (W : world) (count : nat) :
  forall (from : Z) (s s' : state),
    for_ count from (spawn_worker W) s = Ok tt s' ->
    (forall k : nat, (k < 3 * count)%nat -> pthread_at W (now s + k) = 0) /\
    trace s' = trace s ++ concat (repeat worker_init_calls count) /\
    now s' = (3 * count + now s)%nat.
Proof.
  induction count as [|count IH]; intros from s s' H.
  - cbv [for_ ret] in H. injection H as <-. cbn.
    rewrite app_nil_r. repeat split; auto. intros k Hk. lia.
  - cbn [for_] in H. inv_bind H as u1 s1 H1. destruct u1.
    apply spawn_worker_calls in H1.
    destruct H1 as (P0 & P1 & P2 & Ht1 & Hnow1).
    apply IH in H. destruct H as (Hall & Ht & Hnow).
    split; [|split].
    + intros k Hk.
      destruct k as [|[|[|k]]].
      * now rewrite Nat.add_0_r.
      * now replace (now s + 1)%nat with (S (now s)) by lia.
      * now replace (now s + 2)%nat with (S (S (now s))) by lia.
      * replace (now s + S (S (S k)))%nat with (now s1 + k)%nat by lia.
        apply Hall. lia.
    + rewrite Ht, Ht1, <- app_assoc. reflexivity.
    + lia.
Qed.

(** An initialisation of the pool that returns 0 has made all its pthread
    calls, two for the pool and three per worker, and each returned 0. *)
Lemma init_workers_calls (W : world) (s s' : state) :
  _capture_init_workers W s = Ok 0 s' ->
  (forall k : nat,
      (k < 2 + 3 * Z.to_nat (n_buffers (run (dev s))))%nat ->
      pthread_at W (S (now s) + k) = 0) /\
  since s s'
  = EvCalloc (n_buffers (run (dev s))) true
    :: EvPthread MutexInit 0 :: EvPthread CondInit 0
    :: concat (repeat worker_init_calls
                 (Z.to_nat (n_buffers (run (dev s))))).
Proof.
  intros H. unfold _capture_init_workers in H.
  cbv [bind get ret calloc set_workers modify emit tick] in H.
  change (now (with_pool (mk_pool None) s)) with (now s) in H.
  destruct (calloc_at W (now s)); cbv [negb] in H; [|discriminate].
  set (s1 := with_pool _ _) in H.
  destruct (assert_call W MutexInit s1) as [(P0 & H1)|(_ & H1)];
    rewrite H1 in H; [|discriminate].
  set (s2 := record _ _) in H.
  destruct (assert_call W CondInit s2) as [(P1 & H2)|(_ & H2)];
    rewrite H2 in H; [|discriminate].
  set (s3 := record _ _) in H.
  set (n := Z.to_nat (n_buffers (run (dev s)))) in *.
  destruct (for_ n 0 (spawn_worker W) s3) as [[] s4|h s4] eqn:H6;
    [|discriminate].
  injection H as <-.
  apply spawn_loop_calls in H6. destruct H6 as (Hall & Ht & _).
  change (now s1) with (S (now s)) in P0.
  change (now s2) with (S (S (now s))) in P1.
  change (now s3) with (S (S (S (now s)))) in Hall.
  split.
  - intros k Hk. destruct k as [|[|k]].
    + now rewrite Nat.add_0_r.
    + now replace (S (now s) + 1)%nat with (S (S (now s))) by lia.
    + replace (S (now s) + S (S k))%nat with (S (S (S (now s))) + k)%nat
        by lia.
      apply Hall. lia.
  - apply since_app. rewrite Ht. unfold s3, s2, s1. trace_eq.
Qed.

(** C4, as the code has it: a pool whose array cannot be allocated makes
    [_capture_init_workers] return -1 with no pool left, and this is the only
    way it reports a failure; the attempt then folds into the retry path of
    the supervisor: device closed, sleep for the error delay, next attempt.
    A mutex, a condition variable or a thread that cannot be created is not
    reported: with the array allocated, a non-zero result of any of the
    pthread calls of the initialisation (the mutex and the condition
    variable of the pool at the first two ticks, then the mutex, the
    condition variable and the thread of each worker, three ticks per
    worker) fails the assertion on a call and aborts the process, and
    [_capture_init_workers] is aborted in no other way.  An initialisation
    that returns 0 has made all these calls, in this order, each with
    result 0. *)
Theorem pool_init_failure (W : world) (s : state) :
  (calloc_at W (now s) = false ->
   exists s' : state,
     _capture_init_workers W s = Ok (-1) s' /\
     workers (pool s') = None /\
     since s s' = [EvCalloc (n_buffers (run (dev s))) false]) /\
  (forall (r : Z) (s' : state),
      _capture_init_workers W s = Ok r s' ->
      (r = -1 /\ calloc_at W (now s) = false) \/
      (r = 0 /\ calloc_at W (now s) = true)) /\
  (forall (h : halt) (s' : state),
      _capture_init_workers W s = Halt h s' ->
      h = AssertFailed /\ calloc_at W (now s) = true /\ failed_init s') /\
  (forall k : nat,
      calloc_at W (now s) = true ->
      (k < 2 + 3 * Z.to_nat (n_buffers (run (dev s))))%nat ->
      pthread_at W (S (now s) + k) <> 0 ->
      exists s' : state,
        _capture_init_workers W s = Halt AssertFailed s' /\
        failed_init s') /\
  (forall s' : state,
      _capture_init_workers W s = Ok 0 s' ->
      since s s'
      = EvCalloc (n_buffers (run (dev s))) true
        :: EvPthread MutexInit 0 :: EvPthread CondInit 0
        :: concat (repeat worker_init_calls
                     (Z.to_nat (n_buffers (run (dev s)))))) /\
  (forall (fuel : nat) (retval : Z),
      workers (pool s) = None ->
      capturing (run (dev s)) = false ->
      stop_at W (now s) = false ->
      0 <= op_retval (open_at W (S (now s))) ->
      0 <= io_retval (ioctl_at W (S (S (now s)))) ->
      calloc_at W (S (S (S (now s)))) = false ->
      exists s' : state,
        init_loop W (S fuel) retval s = init_loop W fuel (-1) s' /\
        since s s'
        = [EvStop false; EvClose; EvOpen (op_retval (open_at W (S (now s))));
           EvIoctl VIDIOC_STREAMON 0 (ioctl_at W (S (S (now s))));
           EvCalloc (u32 (op_n_buffers (open_at W (S (now s))))) false;
           EvClose; EvSleep (error_timeout (dev s))] /\
        workers (pool s') = None).
Proof.
  pose proof (init_workers_cases W s) as Hc.
  split; [|split; [|split; [|split; [|split]]]].
  - intros Hcal.
    destruct (_capture_init_workers W s) as [r s'|h s'].
    + destruct Hc as (_ & _ & [(-> & _ & Hw & _ & Hs)|(_ & Ht & _)]);
        [|congruence].
      now exists s'.
    + destruct Hc as (_ & Ht & _). congruence.
  - intros r s' H. rewrite H in Hc.
    destruct Hc as (_ & _ & [(-> & Hf & _)|(-> & Ht & _)]); auto.
  - intros h s' H. rewrite H in Hc. exact Hc.
  - intros k Hcal Hk Hp.
    destruct (_capture_init_workers W s) as [r s'|h s'] eqn:E.
    + exfalso.
      destruct Hc as (_ & _ & [(_ & Hf & _)|(-> & _)]); [congruence|].
      apply init_workers_calls in E. destruct E as (Hall & _).
      apply Hp. now apply Hall.
    + destruct Hc as (-> & _ & Hf). now exists s'.
  - intros s' H. now apply init_workers_calls in H.
  - intros fuel retval. apply alloc_failure_retries.
Qed.

Lemma pool_init_failure_witness :
  (exists s' : state,
      _capture_init_workers no_memory_world (sample_state true)
        = Ok (-1) s' /\
      workers (pool s') = None) /\
  (exists s' : state,
      _capture_init_workers no_cond_world (sample_state true)
        = Halt AssertFailed s' /\
      failed_init s') /\
  (exists s' : state,
      init_loop no_memory_world 2 (-1) (sample_state false)
        = init_loop no_memory_world 1 (-1) s' /\
      workers (pool s') = None).
Proof.
  destruct (pool_init_failure no_memory_world (sample_state true))
    as (H1 & _).
  destruct (pool_init_failure no_cond_world (sample_state true))
    as (_ & _ & _ & H4 & _).
  destruct (pool_init_failure no_memory_world (sample_state false))
    as (_ & _ & _ & _ & _ & H6).
  split; [|split].
  - destruct H1 as (s' & E & Hw & _); [reflexivity|].
    exists s'. split; [exact E | exact Hw].
  - apply (H4 1%nat); [reflexivity | cbn; lia | cbn; discriminate].
  - destruct (H6 1%nat (-1)) as (s' & E & _ & Hw);
      [reflexivity | reflexivity | reflexivity | cbn; lia | cbn; lia
      | reflexivity |].
    exists s'. split; [exact E | exact Hw].
Defined.

(** C4 as stated fails: when the first worker thread cannot be created, the
    initialisation does not report a failure to the supervisor; the
    assertion on pthread_create fails and the supervisor is aborted. *)
Lemma thread_creation_failure_aborts :
  exists s' : state,
    capture_loop no_thread_world 3 (sample_state false)
      = Halt AssertFailed s' /\
    hd_error (log s') = Some (EvPthread Create 11) /\
    ~ In (EvSleep 1) (log s').
Proof.
  eexists. split; [vm_compute; reflexivity|].
  split; [reflexivity|].
  cbn. intros H.
  repeat (destruct H as [H|H]; [discriminate|]). exact H.
Qed.

(** * Further properties of the capture engine *)

(** ** The frames a mainloop forwards *)

Lemma audit_app (n min : Z) (d1 d2 : list event) :
  forall last : option (Z * Z),
    audit n min last (d1 ++ d2)
    = match audit n min last d1 with
      | Some last' => audit n min last' d2
      | None => None
      end.
Proof.
  induction d1 as [|e d1 IH]; intros last; [reflexivity|].
  destruct e; cbn; auto.
  - destruct req; auto. destruct (_ || _); auto.
  - destruct last as [[j size]|]; auto. destruct (_ && _); auto.
Qed.

(** One round of the mainloop makes mainloop calls only, and compresses
    only the frame it has just acquired, valid and large enough. *)
Lemma mainloop_body_audit (W : world) (fc : Z) (s : state) :
  exists (c : loop_ctl) (fc' : Z) (d : list event) (s' : state),
    mainloop_body W fc s = Ok (c, fc') s' /\
    trace s' = trace s ++ d /\
    dev s' = dev s /\
    forallb mainloop_event d = true /\
    forall last : option (Z * Z),
      audit (n_buffers (run (dev s))) (min_frame_size (dev s)) last d
      = Some last \/
      audit (n_buffers (run (dev s))) (min_frame_size (dev s)) last d
      = Some None.
Proof.
  unfold mainloop_body, frame_ready, pass_frame, _capture_grab_buffer,
    _capture_release_buffer, _capture_handle_event, jpeg_compress_buffer,
    select_, xioctl.
  run_monad. split_ifs.
  all: do 4 eexists; (split; [reflexivity|]); (split; [trace_eq|]).
  all: cbn; (split; [reflexivity|]); (split; [reflexivity|]).
  all: intros last; use_eqns; rewrite ?Z.eqb_refl; cbn.
  all: try (left; reflexivity); try (right; reflexivity).
  all: bool_hyps.
  all: repeat match goal with
         | |- context [?a <? ?b] =>
             replace (a <? b) with true by (symmetry; apply Z.ltb_lt; lia)
         | |- context [?a <=? ?b] =>
             replace (a <=? b) with true by (symmetry; apply Z.leb_le; lia)
         end; cbn.
  all: try (left; reflexivity); try (right; reflexivity).
Qed.

Lemma mainloop_audit (W : world) (fuel : nat) :
  forall (fc : Z) (s : state),
  exists d : list event,
    trace (final (mainloop W fuel fc s)) = trace s ++ d /\
    forallb mainloop_event d = true /\
    forall last : option (Z * Z),
      audit (n_buffers (run (dev s))) (min_frame_size (dev s)) last d
      = Some last \/
      audit (n_buffers (run (dev s))) (min_frame_size (dev s)) last d
      = Some None.
Proof.
  induction fuel as [|fuel IH]; intros fc s.
  - exists []. cbn. rewrite app_nil_r. auto.
  - rewrite mainloop_unfold.
    destruct (stop_at W (now s)) eqn:Hstop.
    + exists [EvStop true]. cbn. auto.
    + destruct (mainloop_body_audit W fc (record (EvStop false) (advance s)))
        as (c & fc' & d & s' & Hb & Ht & Hd & Hev & Ha).
      rewrite Hb. cbn in Hd, Ha.
      rewrite trace_record, trace_advance, <- app_assoc in Ht.
      destruct c.
      * destruct (IH fc' s') as (d' & Ht' & Hev' & Ha').
        rewrite Hd in Ha'.
        exists ((EvStop false :: d) ++ d').
        rewrite Ht', Ht, <- !app_assoc. split; [reflexivity|].
        split; [rewrite forallb_app; cbn; now rewrite Hev, Hev'|].
        intros last. rewrite audit_app. cbn.
        destruct (Ha last) as [E|E]; rewrite E.
        -- apply Ha'.
        -- destruct (Ha' None) as [E'|E']; auto.
      * exists (EvStop false :: d). cbn. rewrite Ht. auto.
Qed.

Lemma audit_forwarded (n min : Z) (d : list event) :
  forall last last' : option (Z * Z),
    (forall j size : Z, last = Some (j, size) -> 0 <= j) ->
    audit n min last d = Some last' ->
    Forall (fun i => 0 <= i < n) (forwarded d).
Proof.
  induction d as [|e d IH]; intros last last' Hl H; [constructor|].
  assert (Hu : forall x : Z, 0 <= u32 x)
    by (intros x; unfold u32; apply Z.mod_pos_bound; lia).
  destruct e; cbn in H; try (apply (IH last last' Hl H)).
  - destruct req; try (apply (IH last last' Hl H)).
    + destruct (_ || _).
      * apply (IH None last'); [discriminate | exact H].
      * apply (IH (Some (u32 (io_index r), u32 (io_bytesused r))) last');
          [|exact H].
        intros j size E. inversion E; subst. apply Hu.
    + apply (IH None last'); [discriminate | exact H].
  - destruct last as [[j size]|]; [|discriminate].
    destruct ((idx =? j) && (j <? n) && (min <=? size)) eqn:E; [|discriminate].
    apply andb_prop in E. destruct E as (E & _).
    apply andb_prop in E. destruct E as (E1 & E2).
    apply Z.eqb_eq in E1. apply Z.ltb_lt in E2. subst.
    cbn. constructor.
    + split; [apply (Hl j size eq_refl) | exact E2].
    + apply (IH _ last' Hl H).
Qed.

(** X1: in every run of the mainloop, returned or cut off, a buffer is
    handed to the compression only right after its acquisition in the same
    round, with the index of that acquisition, an index below the negotiated
    buffer count and a size of at least [min_frame_size]; so every index
    forwarded is a valid buffer index and no frame below the minimum size
    is ever forwarded. *)
Theorem mainloop_forwards_only_valid_frames (W : world) (fuel : nat) (fc : Z)
        (s : state) :
  audit (n_buffers (run (dev s))) (min_frame_size (dev s)) None
    (since s (final (mainloop W fuel fc s))) = Some None /\
  Forall (fun i => 0 <= i < n_buffers (run (dev s)))
    (forwarded (since s (final (mainloop W fuel fc s)))).
Proof.
  destruct (mainloop_audit W fuel fc s) as (d & Ht & _ & Ha).
  rewrite (since_app _ _ _ Ht).
  assert (E : audit (n_buffers (run (dev s))) (min_frame_size (dev s)) None d
              = Some None) by (destruct (Ha None); auto).
  split; [exact E|].
  apply (audit_forwarded _ (min_frame_size (dev s)) d None None);
    [discriminate | exact E].
Qed.

(** X2: the mainloop keeps the session as it found it.  Whatever the world
    answers, a run of the mainloop leaves the device structure, the
    capturing flag and the worker pool unchanged, creates and joins no
    thread, never aborts the process (it ends by a return, or is cut off
    for lack of fuel), and makes no call other than reads of the stop flag,
    select, VIDIOC_DQBUF, VIDIOC_QBUF, VIDIOC_DQEVENT and the compression:
    it never starts or stops the stream and never opens or closes the
    device. *)
Theorem mainloop_keeps_session (W : world) (fuel : nat) (fc : Z) (s : state) :
  dev (final (mainloop W fuel fc s)) = dev s /\
  pool (final (mainloop W fuel fc s)) = pool s /\
  nthreads (final (mainloop W fuel fc s)) = nthreads s /\
  (now s <= now (final (mainloop W fuel fc s)))%nat /\
  forallb mainloop_event (since s (final (mainloop W fuel fc s))) = true /\
  (mainloop W fuel fc s = Ok tt (final (mainloop W fuel fc s)) \/
   mainloop W fuel fc s = Halt OutOfFuel (final (mainloop W fuel fc s))).
Proof.
  destruct (mainloop_spec W fuel fc s) as (_ & _ & _ & Hd & Hp & Hn & Hnow & Hh).
  destruct (mainloop_audit W fuel fc s) as (d & Ht & Hev & _).
  rewrite (since_app _ _ _ Ht).
  repeat split; auto.
  destruct (mainloop W fuel fc s) as [[] s'|h s'] eqn:E; cbn; auto.
  right. now rewrite (Hh h s' eq_refl).
Qed.

(** The mainloop over frames that arrive without errors: it goes through
    one round per frame, forwards what the skip policy and the size filter
    keep, and releases every buffer. *)
Lemma frames_run (W : world) (frames : list (Z * Z)) :
  forall (s : state) (c : Z),
    arrive W (n_buffers (run (dev s))) (now s) frames ->
    exists s' : state,
      (forall fuel : nat,
          mainloop W (length frames + fuel) c s
          = mainloop W fuel (count_after (dev s) c frames) s') /\
      dev s' = dev s /\
      exists d : list event,
        trace s' = trace s ++ d /\
        forwarded d = forwarded_by (dev s) c frames /\
        released d = map fst frames /\
        acquired (n_buffers (run (dev s))) d = map fst frames.
Proof.
  induction frames as [|[idx size] rest IH]; intros s c Harr.
  - exists s. split; [reflexivity|]. split; [reflexivity|].
    exists []. now rewrite app_nil_r.
  - destruct Harr as (G & Hrest).
    destruct (good_round_events W c s idx size G) as (d1 & T1 & F1 & R1 & A1).
    destruct (IH (after_frame W c s) (next_count (dev s) c) Hrest)
      as (s' & Hm & Hd & d2 & T2 & F2 & R2 & A2).
    change (dev (after_frame W c s)) with (dev s) in *.
    exists s'. split; [|split; [exact Hd|]].
    + intros fuel. cbn [length Nat.add count_after].
      rewrite (good_round W _ c s idx size G). apply Hm.
    + exists (d1 ++ d2). rewrite T2, T1, <- app_assoc.
      split; [reflexivity|].
      rewrite forwarded_app, released_app, acquired_app.
      rewrite F1, F2, R1, R2, A1, A2. cbn. auto.
Qed.

Lemma s32_small (x : Z) : - 2 ^ 31 <= x < 2 ^ 31 -> s32 x = x.
Proof.
  intros H. unfold s32.
  change (2 ^ 31) with 2147483648 in *. change (2 ^ 32) with 4294967296.
  rewrite Z.mod_small; lia.
Qed.

Lemma succ_mod (N q : Z) :
  0 < N -> 0 <= q ->
  (q mod N < N - 1 /\ (q + 1) mod N = q mod N + 1) \/
  (q mod N = N - 1 /\ (q + 1) mod N = 0).
Proof.
  intros HN Hq.
  pose proof (Z.mod_pos_bound q N HN) as Hb.
  pose proof (Z.div_mod q N ltac:(lia)) as Hdm.
  destruct (Z_lt_ge_dec (q mod N) (N - 1)) as [Hlt|Hge].
  - left. split; [exact Hlt|].
    symmetry. apply (Z.mod_unique _ _ (q / N)); lia.
  - right. split; [lia|].
    symmetry. apply (Z.mod_unique _ _ (q / N + 1)); lia.
Qed.

(** With a skip factor [N] of at least 1, the policy of [frame_ready] is
    the cadence of every [N]-th frame. *)
Lemma policy_cadence (d : device) (N : Z) (frames : list (Z * Z)) :
  every_frame d = N -> 1 <= N < 2 ^ 31 ->
  forall q : Z,
    0 <= q ->
    forwarded_by d (q mod N) frames = cadence N (min_frame_size d) q frames /\
    count_after d (q mod N) frames = (q + Z.of_nat (length frames)) mod N.
Proof.
  intros HN Hr.
  assert (Hs : s32 (s32 N - 1) = N - 1).
  { rewrite (s32_small N) by lia. apply s32_small. lia. }
  induction frames as [|[idx size] rest IH]; intros q Hq.
  - cbn. now rewrite Z.add_0_r.
  - pose proof (Z.mod_pos_bound q N ltac:(lia)) as Hb.
    assert (Hskip : skipped d (q mod N) = negb ((q + 1) mod N =? 0) /\
                    next_count d (q mod N) = (q + 1) mod N).
    { unfold next_count, skipped. rewrite HN, Hs.
      replace (N =? 0) with false by (symmetry; apply Z.eqb_neq; lia).
      cbn [negb andb].
      destruct (succ_mod N q ltac:(lia) Hq) as [(H1 & H2)|(H1 & H2)];
        rewrite H2.
      - replace (q mod N <? N - 1) with true
          by (symmetry; apply Z.ltb_lt; lia).
        replace (q mod N + 1 =? 0) with false
          by (symmetry; apply Z.eqb_neq; lia).
        split; [reflexivity|]. apply s32_small. lia.
      - replace (q mod N <? N - 1) with false
          by (symmetry; apply Z.ltb_ge; lia).
        auto. }
    destruct Hskip as (Hsk & Hnx).
    cbn [forwarded_by cadence count_after length].
    rewrite Hsk, Hnx, negb_involutive.
    destruct (IH (q + 1) ltac:(lia)) as (IH1 & IH2).
    rewrite IH1, IH2. split; [reflexivity|].
    f_equal. lia.
Qed.

(** X3: the skip cadence.  With a skip factor [N] between 1 and INT_MAX and
    a fresh counter, over any run of frames that arrive without errors the
    mainloop goes through one round per frame, hands to the compression
    exactly the frames whose number in arrival order is a multiple of [N]
    and whose size is at least the minimum, releases every buffer in
    arrival order, and ends with the counter at the number of frames
    modulo [N]. *)
Theorem skip_cadence (W : world) (s : state) (N : Z) (frames : list (Z * Z)) :
  every_frame (dev s) = N ->
  1 <= N < 2 ^ 31 ->
  arrive W (n_buffers (run (dev s))) (now s) frames ->
  exists s' : state,
    (forall fuel : nat,
        mainloop W (length frames + fuel) 0 s
        = mainloop W fuel (Z.of_nat (length frames) mod N) s') /\
    forwarded (since s s') = cadence N (min_frame_size (dev s)) 0 frames /\
    released (since s s') = map fst frames.
Proof.
  intros HN Hr Harr.
  destruct (frames_run W frames s 0 Harr)
    as (s' & Hm & _ & d & Ht & Hf & Hrel & _).
  destruct (policy_cadence (dev s) N frames HN Hr 0 ltac:(lia)) as (Hc1 & Hc2).
  rewrite Z.mod_0_l in Hc1, Hc2 by lia. cbn [Z.add] in Hc2.
  exists s'. rewrite (since_app _ _ _ Ht).
  split; [|split; [congruence | exact Hrel]].
  intros fuel. rewrite Hm, Hc2. reflexivity.
Qed.

Lemma skip_cadence_witness :
  exists s' : state,
    mainloop scenario_world 7 0 (sample_state true)
      = mainloop scenario_world 1 0 s' /\
    forwarded (since (sample_state true) s') = [1] /\
    released (since (sample_state true) s') = [0; 1; 0; 1; 0; 1].
Proof.
  destruct (skip_cadence scenario_world (sample_state true) 3
              [(0, 9000); (1, 9000); (0, 500); (1, 9000); (0, 9000);
               (1, 9000)])
    as (s' & Hm & Hf & Hr).
  - reflexivity.
  - cbn; lia.
  - repeat split; try (vm_compute; reflexivity); vm_compute; discriminate.
  - exists s'. split; [exact (Hm 1%nat)|]. split; [exact Hf | exact Hr].
Defined.

Lemma policy_unskipped (d : device) (frames : list (Z * Z)) :
  every_frame d = 0 ->
  forall c : Z,
    forwarded_by d c frames = large_enough (min_frame_size d) frames /\
    count_after d c frames = c.
Proof.
  intros H0.
  assert (Hs : forall c : Z, skipped d c = false /\ next_count d c = c).
  { intros c. unfold next_count, skipped. rewrite H0. auto. }
  induction frames as [|[idx size] rest IH]; intros c; [auto|].
  cbn [forwarded_by count_after]. unfold large_enough. cbn [filter snd].
  destruct (Hs c) as (-> & ->). destruct (IH c) as (-> & ->).
  split; [|reflexivity].
  cbn [negb andb]. destruct (size <? min_frame_size d); reflexivity.
Qed.

(** X4: a skip factor of 0 switches the skip policy off.  Over any run of
    frames that arrive without errors, whatever the counter, the mainloop
    forwards every frame of at least the minimum size, releases every
    buffer and leaves the counter as it was. *)
Theorem no_skip_factor (W : world) (s : state) (c : Z)
        (frames : list (Z * Z)) :
  every_frame (dev s) = 0 ->
  arrive W (n_buffers (run (dev s))) (now s) frames ->
  exists s' : state,
    (forall fuel : nat,
        mainloop W (length frames + fuel) c s = mainloop W fuel c s') /\
    forwarded (since s s') = large_enough (min_frame_size (dev s)) frames /\
    released (since s s') = map fst frames.
Proof.
  intros H0 Harr.
  destruct (frames_run W frames s c Harr)
    as (s' & Hm & _ & d & Ht & Hf & Hrel & _).
  destruct (policy_unskipped (dev s) frames H0 c) as (Hp1 & Hp2).
  exists s'. rewrite (since_app _ _ _ Ht).
  split; [|split; [congruence | exact Hrel]].
  intros fuel. rewrite Hm, Hp2. reflexivity.
Qed.

Lemma no_skip_factor_witness :
  exists s' : state,
    mainloop scenario_world 4 0 unskipped_state
      = mainloop scenario_world 1 0 s' /\
    forwarded (since unskipped_state s') = [0; 1] /\
    released (since unskipped_state s') = [0; 1; 0].
Proof.
  destruct (no_skip_factor scenario_world unskipped_state 0
              [(0, 9000); (1, 9000); (0, 500)])
    as (s' & Hm & Hf & Hr).
  - reflexivity.
  - repeat split; try (vm_compute; reflexivity); vm_compute; discriminate.
  - exists s'. split; [exact (Hm 1%nat)|]. split; [exact Hf | exact Hr].
Defined.

(** ** The outcomes of a round *)

Ltac unfold_round :=
  rewrite mainloop_unfold;
  unfold mainloop_body, frame_ready, pass_frame, _capture_grab_buffer,
    _capture_release_buffer, _capture_handle_event, jpeg_compress_buffer,
    select_, xioctl;
  run_monad.

(** X5: the outcomes of the readiness wait.  In a round that starts with the
    stop flag clear: a wait interrupted by a signal (negative result, errno
    EINTR) is followed by the next round with the skip counter as it was; a
    wait that times out (result 0) or fails with another error makes the
    mainloop return.  In each case the round has made no call but the read
    of the flag and the select. *)
Theorem wait_outcomes (W : world) (fuel : nat) (fc : Z) (s : state) :
  stop_at W (now s) = false ->
  exists s' : state,
    since s s' = [EvStop false;
                  EvSelect (timeout (dev s)) (select_at W (S (now s)))] /\
    dev s' = dev s /\
    (sel_retval (select_at W (S (now s))) < 0 ->
     sel_errno (select_at W (S (now s))) = EINTR ->
     mainloop W (S fuel) fc s = mainloop W fuel fc s') /\
    (sel_retval (select_at W (S (now s))) < 0 ->
     sel_errno (select_at W (S (now s))) <> EINTR ->
     mainloop W (S fuel) fc s = Ok tt s') /\
    (sel_retval (select_at W (S (now s))) = 0 ->
     mainloop W (S fuel) fc s = Ok tt s').
Proof.
  intros Hs.
  exists (record (EvSelect (timeout (dev s)) (select_at W (S (now s))))
            (advance (record (EvStop false) (advance s)))).
  split; [apply since_app; trace_eq|]. split; [reflexivity|].
  split; [|split].
  - intros Hr He. unfold_round. rewrite Hs. cbn.
    replace (sel_retval (select_at W (S (now s))) <? 0) with true
      by (symmetry; apply Z.ltb_lt; lia).
    rewrite He. reflexivity.
  - intros Hr He. unfold_round. rewrite Hs. cbn.
    replace (sel_retval (select_at W (S (now s))) <? 0) with true
      by (symmetry; apply Z.ltb_lt; lia).
    replace (sel_errno (select_at W (S (now s))) =? EINTR) with false
      by (symmetry; apply Z.eqb_neq; exact He).
    reflexivity.
  - intros Hr. unfold_round. rewrite Hs. cbn. rewrite Hr. reflexivity.
Qed.

Lemma wait_outcomes_witness :
  exists s' : state,
    mainloop (mk_world (fun _ => false)
                (fun _ => mk_select 0 0 false false false)
                (fun _ => mk_ioctl 0 0 9000 0) (fun _ => mk_open 0 3 2)
                (fun _ => true) (fun _ => 0))
      1 0 (sample_state true) = Ok tt s' /\
    since (sample_state true) s'
    = [EvStop false; EvSelect 2 (mk_select 0 0 false false false)].
Proof.
  destruct (wait_outcomes
              (mk_world (fun _ => false)
                 (fun _ => mk_select 0 0 false false false)
                 (fun _ => mk_ioctl 0 0 9000 0) (fun _ => mk_open 0 3 2)
                 (fun _ => true) (fun _ => 0))
              0 0 (sample_state true))
    as (s' & Hd & _ & _ & _ & H0); [reflexivity|].
  exists s'. split; [apply H0; reflexivity | exact Hd].
Defined.

(** X6: device events in the mainloop.  In a round whose wait reports the
    descriptor error-ready only, a dequeued V4L2_EVENT_SOURCE_CHANGE makes
    the mainloop return; an event of any other type, V4L2_EVENT_EOS among
    them, or an event that cannot be dequeued, is followed by the next round
    with the skip counter as it was.  No buffer is acquired in the round. *)
Theorem event_round (W : world) (fuel : nat) (fc : Z) (s : state) :
  stop_at W (now s) = false ->
  0 < sel_retval (select_at W (S (now s))) ->
  sel_read (select_at W (S (now s))) = false ->
  sel_write (select_at W (S (now s))) = false ->
  sel_error (select_at W (S (now s))) = true ->
  exists s' : state,
    since s s' = [EvStop false;
                  EvSelect (timeout (dev s)) (select_at W (S (now s)));
                  EvIoctl VIDIOC_DQEVENT 0 (ioctl_at W (S (S (now s))))] /\
    (io_retval (ioctl_at W (S (S (now s)))) = 0 ->
     u32 (io_type (ioctl_at W (S (S (now s))))) = V4L2_EVENT_SOURCE_CHANGE ->
     mainloop W (S fuel) fc s = Ok tt s') /\
    (io_retval (ioctl_at W (S (S (now s)))) <> 0 \/
     u32 (io_type (ioctl_at W (S (S (now s))))) <> V4L2_EVENT_SOURCE_CHANGE ->
     mainloop W (S fuel) fc s = mainloop W fuel fc s').
Proof.
  intros Hs Hr Hread Hw He.
  assert (E1 : (sel_retval (select_at W (S (now s))) <? 0) = false)
    by (apply Z.ltb_ge; lia).
  assert (E2 : (sel_retval (select_at W (S (now s))) =? 0) = false)
    by (apply Z.eqb_neq; lia).
  exists (record (EvIoctl VIDIOC_DQEVENT 0 (ioctl_at W (S (S (now s)))))
            (advance
               (record (EvSelect (timeout (dev s)) (select_at W (S (now s))))
                  (advance (record (EvStop false) (advance s)))))).
  split; [apply since_app; trace_eq|]. split.
  - intros H0 Ht. unfold_round.
    repeat (progress (rewrite ?Hs, ?Hread, ?Hw, ?He, ?E1, ?E2, ?H0, ?Ht; cbn)).
    reflexivity.
  - intros Hor. unfold_round.
    repeat (progress (rewrite ?Hs, ?Hread, ?Hw, ?He, ?E1, ?E2; cbn)).
    destruct (io_retval (ioctl_at W (S (S (now s)))) =? 0) eqn:E3; cbn;
      [|reflexivity].
    destruct (u32 (io_type (ioctl_at W (S (S (now s)))))
              =? V4L2_EVENT_SOURCE_CHANGE) eqn:E4; cbn.
    + bool_hyps. destruct Hor; contradiction.
    + destruct (u32 (io_type (ioctl_at W (S (S (now s))))) =? V4L2_EVENT_EOS);
        reflexivity.
Qed.

Lemma event_round_witness :
  exists s' : state,
    mainloop (mk_world (fun _ => false)
                (fun _ => mk_select 1 0 false false true)
                (fun _ => mk_ioctl 0 0 0 5) (fun _ => mk_open 0 3 2)
                (fun _ => true) (fun _ => 0))
      1 0 (sample_state true) = Ok tt s'.
Proof.
  destruct (event_round
              (mk_world (fun _ => false)
                 (fun _ => mk_select 1 0 false false true)
                 (fun _ => mk_ioctl 0 0 0 5) (fun _ => mk_open 0 3 2)
                 (fun _ => true) (fun _ => 0))
              0 0 (sample_state true))
    as (s' & _ & H1 & _);
    [reflexivity | cbn; lia | reflexivity | reflexivity | reflexivity |].
  exists s'. apply H1; reflexivity.
Defined.

(** X7: a failure of the buffer exchange ends the session.  In a round whose
    wait reports the descriptor read-ready: when VIDIOC_DQBUF fails the
    mainloop returns with nothing forwarded and nothing released; when the
    acquisition succeeds and VIDIOC_QBUF fails the mainloop returns after
    the frame went through the skip policy and the size filter, forwarded
    when they keep it, and with the one VIDIOC_QBUF issued.  Pending device
    events are not looked at in either case. *)
Theorem exchange_failure_fatal (W : world) (fuel : nat) (fc : Z) (s : state) :
  stop_at W (now s) = false ->
  0 < sel_retval (select_at W (S (now s))) ->
  sel_read (select_at W (S (now s))) = true ->
  (io_retval (ioctl_at W (S (S (now s)))) < 0 ->
   exists s' : state,
     mainloop W (S fuel) fc s = Ok tt s' /\
     since s s' = [EvStop false;
                   EvSelect (timeout (dev s)) (select_at W (S (now s)));
                   EvIoctl VIDIOC_DQBUF 0 (ioctl_at W (S (S (now s))))]) /\
  (0 <= io_retval (ioctl_at W (S (S (now s)))) ->
   u32 (io_index (ioctl_at W (S (S (now s))))) < n_buffers (run (dev s)) ->
   io_retval (ioctl_at W (S (S (S (now s))))) < 0 ->
   mainloop W (S fuel) fc s = Ok tt (after_frame W fc s) /\
   released (since s (after_frame W fc s))
   = [u32 (io_index (ioctl_at W (S (S (now s)))))] /\
   forwarded (since s (after_frame W fc s))
   = (if negb (skipped (dev s) fc)
         && negb (u32 (io_bytesused (ioctl_at W (S (S (now s)))))
                  <? min_frame_size (dev s))
      then [u32 (io_index (ioctl_at W (S (S (now s)))))] else [])).
Proof.
  intros Hs Hr Hread.
  assert (E1 : (sel_retval (select_at W (S (now s))) <? 0) = false)
    by (apply Z.ltb_ge; lia).
  assert (E2 : (sel_retval (select_at W (S (now s))) =? 0) = false)
    by (apply Z.eqb_neq; lia).
  split.
  - intros Hio.
    assert (E3 : (io_retval (ioctl_at W (S (S (now s)))) <? 0) = true)
      by (apply Z.ltb_lt; lia).
    eexists. split.
    + unfold_round.
      repeat (progress (rewrite ?Hs, ?Hread, ?E1, ?E2, ?E3; cbn)).
      reflexivity.
    + apply since_app. trace_eq.
  - intros Hio Hidx Hq.
    assert (E3 : (io_retval (ioctl_at W (S (S (now s)))) <? 0) = false)
      by (apply Z.ltb_ge; lia).
    assert (E4 : (n_buffers (run (dev s))
                  <=? u32 (io_index (ioctl_at W (S (S (now s)))))) = false)
      by (apply Z.leb_gt; lia).
    assert (E5 : (io_retval (ioctl_at W (S (S (S (now s))))) <? 0) = true)
      by (apply Z.ltb_lt; lia).
    split; [|split].
    + unfold_round. unfold after_frame, skipped.
      repeat (progress (rewrite ?Hs, ?Hread, ?E1, ?E2, ?E3, ?E4, ?E5; cbn)).
      destruct (negb (every_frame (dev s) =? 0)
                && (fc <? s32 (s32 (every_frame (dev s)) - 1))); cbn;
        repeat (progress (rewrite ?E5; cbn)); [reflexivity|].
      destruct (u32 (io_bytesused (ioctl_at W (S (S (now s)))))
                <? min_frame_size (dev s)); cbn;
        repeat (progress (rewrite ?E5; cbn)); reflexivity.
    + unfold after_frame.
      destruct (negb (skipped (dev s) fc) && _);
        (erewrite since_app; [|trace_eq]); reflexivity.
    + unfold after_frame.
      destruct (negb (skipped (dev s) fc) && _);
        (erewrite since_app; [|trace_eq]); reflexivity.
Qed.

Lemma exchange_failure_fatal_witness :
  exists s' : state,
    mainloop failing_ioctl_world 1 0 (sample_state true) = Ok tt s' /\
    since (sample_state true) s'
    = [EvStop false; EvSelect 2 (mk_select 1 0 true false false);
       EvIoctl VIDIOC_DQBUF 0 (mk_ioctl (-1) 0 0 0)].
Proof.
  destruct (exchange_failure_fatal failing_ioctl_world 0 0 (sample_state true))
    as (H1 & _); [reflexivity | cbn; lia | reflexivity |].
  apply H1. cbn. lia.
Defined.

(** ** Session initialisation *)

(** [_capture_init] returns 0 with a session established, or -1 with no
    pool and the device closed by its last call. *)
Lemma capture_init_post (W : world) (fuel : nat) (s s' : state) (r : Z) :
  _capture_init W fuel s = Ok r s' ->
  (r = 0 /\ established s') \/
  (r = -1 /\ workers (pool s') = None /\
   hd_error (log s') = Some EvClose /\ fd (run (dev s')) = -1).
Proof.
  intros H. unfold _capture_init in H.
  inv_bind H as u0 s0 H0. destruct u0.
  apply destroy_workers_ok in H0. destruct H0 as (Hw0 & _).
  inv_bind H as r1 s1 H1.
  destruct (control_total W false s0) as (r1' & s1' & E1 & Hp1 & _).
  rewrite E1 in H1. inv_ok H1.
  inv_bind H as u2 s2 H2. destruct u2.
  destruct (device_close_eq W s1) as (s2' & E2 & Hp2 & _).
  rewrite E2 in H2. inv_ok H2.
  inv_bind H as r3 s3 H3.
  destruct (device_open_eq W s2) as (r3' & s3' & E3 & Hp3 & _).
  rewrite E3 in H3. inv_ok H3.
  assert (Hnone : workers (pool s3) = None) by congruence.
  assert (Hclose : forall st st' : state,
             workers (pool st) = None ->
             (device_close ;;; ret (-1)) st = Ok r st' ->
             r = -1 /\ workers (pool st') = None /\
             hd_error (log st') = Some EvClose /\ fd (run (dev st')) = -1).
  { intros st st' Hw Hc. inv_bind Hc as u st2 Hc1. inv_ok Hc.
    destruct (device_close_eq W st)
      as (st2' & E & Hp & _ & _ & _ & _ & Hfd & Hlog).
    rewrite E in Hc1. inv_ok Hc1.
    rewrite Hp, Hlog. auto. }
  destruct (r3 <? 0).
  - right. apply (Hclose s3); auto.
  - inv_bind H as r4 s4 H4.
    destruct (control_total W true s3)
      as (r4' & s4' & E4 & Hp4 & _ & _ & _ & Hr4 & Hcap4 & _).
    rewrite E4 in H4. inv_ok H4.
    destruct (r4 <? 0) eqn:Hneg.
    + right. apply (Hclose s4); congruence.
    + inv_bind H as r5 s5 H5.
      pose proof (init_workers_cases W s4) as Hi. rewrite H5 in Hi.
      destruct Hi as (Hd5 & _ & Hcase).
      destruct Hcase as [(-> & _ & Hw5 & _)|(-> & _ & ws & Hw5 & Hl & _)].
      * right. apply (Hclose s5); [exact Hw5 | exact H].
      * left. cbn in H. inv_ok H. split; [reflexivity|].
        apply Z.ltb_ge in Hneg.
        assert (r4 = 0) by (destruct Hr4; lia).
        split; [rewrite Hd5; now apply Hcap4|].
        exists ws. rewrite Hd5. auto.
Qed.

(** X8: [_capture_init_loop] hands a session to the mainloop or gives up on
    the stop signal, nothing else.  When it returns, the result is 0 and a
    session is established (the stream is recorded as capturing and the pool
    has one worker per negotiated buffer), or the result is -1 and its last
    call was a read of the stop flag that found it asserted. *)
Theorem init_loop_outcomes (W : world) (fuel : nat) (s s' : state) (r : Z) :
  _capture_init_loop W fuel s = Ok r s' ->
  (r = 0 /\ established s') \/ (r = -1 /\ stop_last W s').
Proof.
  unfold _capture_init_loop.
  assert (G : forall (retval : Z) (st : state),
             retval = -1 ->
             init_loop W fuel retval st = Ok r s' ->
             (r = 0 /\ established s') \/ (r = -1 /\ stop_last W s')).
  { induction fuel as [|fuel IH]; intros retval st Hrv H; [discriminate|].
    cbn [init_loop] in H. inv_bind H as b s1 H1.
    rewrite read_stop_eq in H1. inv_ok H1.
    destruct (stop_at W (now st)) eqn:Hstop.
    - cbv [ret] in H. injection H as Ha Hs'. subst retval s'.
      right. split; [now symmetry|]. exists (now st). cbn. auto.
    - inv_bind H as r2 s2 H2.
      apply capture_init_post in H2.
      destruct H2 as [(-> & He)|(-> & _)].
      + cbn in H. inv_ok H. left. auto.
      + cbn in H. apply (IH (-1) _ eq_refl H). }
  intros H. apply (G (-1) s eq_refl H).
Qed.

Lemma init_loop_outcomes_witness :
  exists s' : state,
    _capture_init_loop (healthy_world 20) 2 (sample_state false) = Ok 0 s' /\
    established s'.
Proof.
  eexists. split; [vm_compute; reflexivity|].
  match goal with
  | |- established ?s' =>
      destruct (init_loop_outcomes (healthy_world 20) 2 (sample_state false)
                  s' 0) as [(_ & H)|(H & _)];
        [vm_compute; reflexivity | exact H | discriminate H]
  end.
Defined.

(** X9: the teardown of the pool is idempotent.  After a teardown that
    returned, a second teardown makes no call, changes nothing and returns,
    whatever its fuel. *)
Theorem teardown_idempotent (W : world) (fuel fuel' : nat) (s s' : state) :
  _capture_destroy_workers W fuel s = Ok tt s' ->
  _capture_destroy_workers W fuel' s' = Ok tt s'.
Proof.
  intros H. unfold _capture_destroy_workers in H.
  inv_bind H as s0 s0' H0. inv_ok H0.
  inv_bind H as u1 s1 H1.
  unfold set_workers in H. inv_ok H. reflexivity.
Qed.

Lemma teardown_idempotent_witness :
  exists s' : state,
    _capture_destroy_workers (healthy_world 4) 5 pooled_state = Ok tt s' /\
    _capture_destroy_workers (healthy_world 4) 0 s' = Ok tt s'.
Proof.
  eexists. split; [vm_compute; reflexivity|].
  apply (teardown_idempotent (healthy_world 4) 5 0 pooled_state).
  vm_compute. reflexivity.
Defined.

(** X10: a supervisor started with the stop signal asserted returns
    without opening the device.  Its calls are the read of the flag, a
    VIDIOC_STREAMOFF when the stream was recorded as capturing, and
    device_close. *)
Theorem stopped_at_entry (W : world) (fuel : nat) (s : state) :
  stop_at W (now s) = true ->
  exists s' : state,
    capture_loop W (S fuel) s = Ok tt s' /\
    since s s'
    = EvStop true
      :: (if capturing (run (dev s))
          then [EvIoctl VIDIOC_STREAMOFF 0 (ioctl_at W (S (now s)))]
          else [])
      ++ [EvClose] /\
    workers (pool s') = None /\
    capturing (run (dev s')) = false.
Proof.
  intros Hstop. unfold capture_loop, set_workers.
  cbn [sessions]. unfold _capture_init_loop. cbn [init_loop].
  unfold _capture_destroy_workers, _capture_control, device_close,
    read_stop, xioctl, set_workers.
  run_monad. rewrite Hstop. cbn.
  destruct (capturing (run (dev s))) eqn:Hc; cbn;
    rewrite ?andb_false_r; cbn;
    (eexists; split; [reflexivity|]; split; [apply since_app; trace_eq|]);
    cbn; auto.
Qed.

Lemma stopped_at_entry_witness :
  exists s' : state,
    capture_loop (healthy_world 0) 1 (sample_state true) = Ok tt s' /\
    since (sample_state true) s'
    = [EvStop true; EvIoctl VIDIOC_STREAMOFF 0 (mk_ioctl 0 0 9000 0);
       EvClose].
Proof.
  destruct (stopped_at_entry (healthy_world 0) 0 (sample_state true))
    as (s' & H & Hs & _); [reflexivity|].
  exists s'. split; [exact H | exact Hs].
Defined.

(** ** The teardown once the stop signal is asserted *)







(** ** The workers of a pool *)

Lemma upd_nth_same {A} (l : list A) (x : A) :
  forall i : nat, (i < length l)%nat -> nth_error (upd l i x) i = Some x.
Proof.
  induction l as [|a l IH]; intros [|i] H; cbn in *; try lia; auto.
  apply IH. lia.
Qed.

Lemma upd_nth_other {A} (l : list A) (x : A) :
  forall i j : nat, i <> j -> nth_error (upd l i x) j = nth_error l j.
Proof.
  induction l as [|a l IH]; intros [|i] [|j] H; cbn; auto; try congruence.
Qed.

Lemma spawn_worker_ok (W : world) (idx : Z) (s s' : state)
      (ws : list worker) :
  workers (pool s) = Some ws ->
  spawn_worker W idx s = Ok tt s' ->
  workers (pool s')
  = Some (upd ws (Z.to_nat idx) (mk_worker (S (S (now s))) idx)) /\
  now s' = S (S (S (now s))).
Proof.
  intros Hws. unfold spawn_worker, assert_zero, pthread_call, pthread_create,
    set_workers.
  run_monad.
  destruct (pthread_at W (now s) =? 0); cbn; [|discriminate].
  destruct (pthread_at W (S (now s)) =? 0); cbn; [|discriminate].
  destruct (pthread_at W (S (S (now s))) =? 0) eqn:E3; cbn;
    rewrite Hws; cbn; rewrite ?E3; cbn; [|discriminate].
  intros H. inversion H; subst. cbn. auto.
Qed.

Lemma spawn_loop_ok (W : world) (count : nat) :
  forall (k : nat) (s s' : state) (ws : list worker),
    workers (pool s) = Some ws ->
    (k + count <= length ws)%nat ->
    for_ count (Z.of_nat k) (spawn_worker W) s = Ok tt s' ->
    exists ws' : list worker,
      workers (pool s') = Some ws' /\ length ws' = length ws /\
      now s' = (3 * count + now s)%nat /\
      forall i : nat,
        ((i < k \/ k + count <= i)%nat ->
         nth_error ws' i = nth_error ws i) /\
        ((k <= i < k + count)%nat ->
         nth_error ws' i
         = Some (mk_worker (now s + 3 * (i - k) + 2) (Z.of_nat i))).
Proof.
  induction count as [|count IH]; intros k s s' ws Hws Hk H.
  - cbv [for_ ret] in H. injection H as <-.
    exists ws. repeat split; auto. lia.
  - cbn [for_] in H. inv_bind H as u1 s1 H1. destruct u1.
    destruct (spawn_worker_ok W _ s s1 ws Hws H1) as (Hws1 & Hnow1).
    rewrite Nat2Z.id in Hws1.
    replace (Z.of_nat k + 1) with (Z.of_nat (S k)) in H by lia.
    destruct (IH (S k) s1 s' _ Hws1 ltac:(rewrite upd_length; lia) H)
      as (ws' & Hws' & Hlen & Hnow & Hnth).
    exists ws'. rewrite upd_length in Hlen.
    split; [exact Hws'|]. split; [exact Hlen|]. split; [lia|].
    intros i. split.
    + intros Hi. destruct (Hnth i) as (Hout & _).
      rewrite Hout by lia. apply upd_nth_other. lia.
    + intros Hi. destruct (Nat.eq_dec i k) as [->|Hne].
      * destruct (Hnth k) as (Hout & _). rewrite Hout by lia.
        rewrite upd_nth_same by lia. do 2 f_equal. lia.
      * destruct (Hnth i) as (_ & Hin). rewrite Hin by lia.
        do 2 f_equal. lia.
Qed.

(** X12: a pool that [_capture_init_workers] has set up holds exactly one
    worker per negotiated buffer, and the worker at position [i] was given
    the index [i] and a thread of its own: its thread is the one created at
    tick [now + 5 + 3 i], so the threads of two workers differ. *)
Theorem init_workers_pool (W : world) (s s' : state) :
  _capture_init_workers W s = Ok 0 s' ->
  exists ws : list worker,
    workers (pool s') = Some ws /\
    length ws = Z.to_nat (n_buffers (run (dev s))) /\
    (forall (i : nat) (w : worker),
        nth_error ws i = Some w ->
        params_index w = Z.of_nat i /\ tid w = (now s + 5 + 3 * i)%nat) /\
    (forall (i j : nat) (wi wj : worker),
        nth_error ws i = Some wi -> nth_error ws j = Some wj ->
        i <> j -> tid wi <> tid wj).
Proof.
  intros H. unfold _capture_init_workers in H.
  cbv [bind get ret calloc set_workers modify emit tick] in H.
  change (now (with_pool (mk_pool None) s)) with (now s) in H.
  destruct (calloc_at W (now s)); cbv [negb] in H; [|discriminate].
  set (s1 := with_pool _ _) in H.
  destruct (assert_call W MutexInit s1) as [(_ & H1)|(_ & H1)];
    rewrite H1 in H; [|discriminate].
  set (s2 := record _ _) in H.
  destruct (assert_call W CondInit s2) as [(_ & H2)|(_ & H2)];
    rewrite H2 in H; [|discriminate].
  set (s3 := record _ _) in H.
  set (n := Z.to_nat (n_buffers (run (dev s)))) in *.
  destruct (for_ n 0 (spawn_worker W) s3) as [[] s4|h s4] eqn:H6;
    [|discriminate].
  injection H as <-.
  destruct (spawn_loop_ok W n 0 s3 s4 (repeat (mk_worker O 0) n)
              eq_refl ltac:(rewrite repeat_length; lia) H6)
    as (ws & Hws & Hlen & _ & Hnth).
  change (now s3) with (S (S (S (now s)))) in Hnth.
  rewrite repeat_length in Hlen.
  assert (Hw : forall (i : nat) (w : worker),
             nth_error ws i = Some w ->
             params_index w = Z.of_nat i /\ tid w = (now s + 5 + 3 * i)%nat).
  { intros i w Hi.
    assert (Hlt : (i < n)%nat)
      by (rewrite <- Hlen; apply nth_error_Some; congruence).
    destruct (Hnth i) as (_ & Hin). rewrite Hin in Hi by lia.
    injection Hi as <-. cbn. split; [reflexivity | lia]. }
  exists ws. split; [exact Hws|]. split; [exact Hlen|]. split; [exact Hw|].
  intros i j wi wj Hi Hj Hne.
  destruct (Hw i wi Hi) as (_ & ->). destruct (Hw j wj Hj) as (_ & ->). lia.
Qed.

Lemma init_workers_pool_witness :
  exists ws : list worker,
    workers (pool (final (_capture_init_workers (healthy_world 20)
                            (sample_state true)))) = Some ws /\
    length ws = 2%nat.
Proof.
  destruct (init_workers_pool (healthy_world 20) (sample_state true)
              (final (_capture_init_workers (healthy_world 20)
                        (sample_state true))))
    as (ws & Hws & Hlen & _); [vm_compute; reflexivity|].
  exists ws. split; [exact Hws | exact Hlen].
Defined.

(** ** Invariants of the supervisor *)



(** X14: the skip counter stays in range.  With a skip factor [N] between 1
    and INT_MAX, a round that starts with the counter in [0, N) ends with
    the counter in [0, N): it is left as it was, incremented below [N - 1],
    or reset to 0; so [++frames_count] never overflows. *)
Theorem skip_counter_in_range (W : world) (fc : Z) (s s' : state)
        (c : loop_ctl) (fc' : Z) :
  1 <= every_frame (dev s) < 2 ^ 31 ->
  0 <= fc < every_frame (dev s) ->
  mainloop_body W fc s = Ok (c, fc') s' ->
  0 <= fc' < every_frame (dev s) /\
  (fc' = fc \/ (fc' = fc + 1 /\ fc < every_frame (dev s) - 1) \/ fc' = 0).
Proof.
  intros HN Hfc.
  assert (Hs : s32 (s32 (every_frame (dev s)) - 1) = every_frame (dev s) - 1).
  { rewrite (s32_small (every_frame (dev s))) by lia. apply s32_small. lia. }
  unfold mainloop_body, frame_ready, pass_frame, _capture_grab_buffer,
    _capture_release_buffer, _capture_handle_event, jpeg_compress_buffer,
    select_, xioctl.
  run_monad. rewrite ?Hs. split_ifs.
  all: intros H; injection H as _ <- _.
  all: bool_hyps.
  all: try (rewrite s32_small by lia).
  all: try lia.
  all: repeat match goal with
         | H : _ && _ = true |- _ => apply andb_prop in H; destruct H
         | H : _ && _ = false |- _ => apply andb_false_iff in H; destruct H
         | H : negb _ = true |- _ => apply negb_true_iff in H
         | H : negb _ = false |- _ => apply negb_false_iff in H
         end; bool_hyps; try (rewrite s32_small by lia); try lia.
Qed.

Lemma skip_counter_in_range_witness :
  0 <= 2 < 3 /\ (2 = 1 \/ (2 = 1 + 1 /\ 1 < 3 - 1) \/ 2 = 0).
Proof.
  apply (skip_counter_in_range (healthy_world 20) 1 (sample_state true)
           (final (mainloop_body (healthy_world 20) 1 (sample_state true)))
           Continue 2).
  - cbn. lia.
  - cbn. lia.
  - vm_compute. reflexivity.
Defined.
